(** * blazes_iter: lazy producers, iterator tiers and integer ranges

    A shallow embedding of the TypeScript sources
    [src/types.ts], [src/iter/gen.ts], [src/iter/utils.ts],
    [src/iter/iter.ts], [src/iter/exact_sized.ts],
    [src/iter/double_ended.ts], [src/iter/mod.ts],
    [src/range/range.ts] and [src/iter/range.ts].

    Numbers.  The properties below are about integers, so a JS [number]
    is a [Z] and the arithmetic is that of [Z].  A [number] is a double:
    the two agree as long as every value computed is an integer of
    absolute value at most [2^53] ([exact_number]); beyond, a sum of
    doubles rounds ([2^53 + 1] is [2^53]) where the sum in [Z] does not.
    Equality and comparison are the same on both.  So the range
    generators and constructors below are the source on arguments that
    keep their values in that interval.  What rests on comparisons only
    (the zero step, the direction guard) holds of every argument; what a
    range yields, for all its arguments, is stated for [small]
    arguments, of absolute value at most [2^51], from which everything
    the source computes stays within [2^53]; the lemmas without that
    bound are about the arithmetic sequences in [Z] and serve those
    statements.  [%] is the truncated remainder
    [Z.rem]; [Math.floor (x / y)] and [Math.ceil (x / y)] are the floor
    and the ceiling of the rational quotient.

    Generators.  A [GenFn] is a factory of traversals.  A traversal is a
    cursor together with a transition function: one transition is one pass
    through the body of the generator's loop, which either ends the
    generator, throws, goes round the loop without yielding, or yields a
    value.  Draining is done with fuel, so that a producer that never ends
    is a producer no amount of fuel finishes.

    The script that generates the overloads of [pipe] and [flow] writes
    text to a file and is not embedded. *)

From Stdlib Require Import String ZArith List Lia Bool.
Import ListNotations.
Local Open Scope Z_scope.

Set Implicit Arguments.

(** ** src/types.ts and the generator protocol *)

Inductive Step (C T : Type) : Type :=
| Done                      (* the generator function returns *)
| Throw (msg : string)      (* [throw new Error(msg)] *)
| Skip (c : C)              (* a pass through the loop without [yield] *)
| Yield (v : T) (c : C).    (* [yield v] *)

Arguments Done {C T}.
Arguments Throw {C T} msg.
Arguments Skip {C T} c.
Arguments Yield {C T} v c.

(** [type GenFn<T> = () => Generator<T>]: every call starts at [fresh]. *)
Record GenFn (T : Type) : Type := mkGenFn {
  cursor : Type;
  fresh : cursor;
  next : cursor -> Step cursor T
}.

(** [type Option<T> = T | undefined], with [None] for [undefined]; the
    element type [T] is taken not to contain [undefined] itself. *)
Definition Option (T : Type) : Type := option T.

Definition Predicate (T : Type) : Type := T -> bool.

(** How a traversal stopped. *)
Inductive Status : Type :=
| Finished
| Threw (msg : string)
| Pending.                  (* the fuel ran out first *)

(** The result of a terminal operation. *)
Inductive Result (A : Type) : Type :=
| Ret (a : A)
| Raise (msg : string)
| Timeout.

Arguments Ret {A} a.
Arguments Raise {A} msg.
Arguments Timeout {A}.

(** [[...g()]] continued from cursor [c], for at most [fuel] transitions. *)
Fixpoint drain {T} (g : GenFn T) (fuel : nat) (c : cursor g)
  : list T * Status :=
  match fuel with
  | O => ([], Pending)
  | S k =>
      match next g c with
      | Done => ([], Finished)
      | Throw m => ([], Threw m)
      | Skip c' => drain g k c'
      | Yield v c' => let (l, st) := drain g k c' in (v :: l, st)
      end
  end.

(** The producer [g], invoked afresh, yields exactly [l] and then ends. *)
Definition Yields {T} (g : GenFn T) (l : list T) : Prop :=
  exists fuel, drain g fuel (fresh g) = (l, Finished).

(** The producer never ends and never throws: it is still running after
    any number of transitions. *)
Definition NeverEnds {T} (g : GenFn T) : Prop :=
  forall fuel, snd (drain g fuel (fresh g)) = Pending.

(** ** src/iter/gen.ts, on arrays *)

(** [gen(iter)] replays the iterable; for an array, the cursor is what is
    left of it. *)
Definition gen {T} (iter : list T) : GenFn T :=
  {| cursor := list T;
     fresh := iter;
     next := fun c => match c with
                      | [] => Done
                      | x :: r => Yield x r
                      end |}.

(** ** src/iter/utils.ts: the combinators *)

Module Utils.

Section Combinators.
Context {T : Type}.

(** [for (const item of gen()) yield [i++, item]] *)
Definition enumerate (g : GenFn T) : GenFn (Z * T) :=
  {| cursor := Z * cursor g;
     fresh := (0, fresh g);
     next := fun '(i, c) =>
       match next g c with
       | Done => Done
       | Throw m => Throw m
       | Skip c' => Skip (i, c')
       | Yield v c' => Yield (i, v) (i + 1, c')
       end |}.

Definition map {U} (fn : T -> U) (g : GenFn T) : GenFn U :=
  {| cursor := cursor g;
     fresh := fresh g;
     next := fun c =>
       match next g c with
       | Done => Done
       | Throw m => Throw m
       | Skip c' => Skip c'
       | Yield v c' => Yield (fn v) c'
       end |}.

Definition filter (fn : T -> bool) (g : GenFn T) : GenFn T :=
  {| cursor := cursor g;
     fresh := fresh g;
     next := fun c =>
       match next g c with
       | Done => Done
       | Throw m => Throw m
       | Skip c' => Skip c'
       | Yield v c' => if fn v then Yield v c' else Skip c'
       end |}.

(** [let i = 0; for (item of gen()) { if (i === n) break; yield item; i++ }]:
    the item is pulled from the source before [i] is compared with [n]. *)
Definition take (n : Z) (g : GenFn T) : GenFn T :=
  {| cursor := Z * cursor g;
     fresh := (0, fresh g);
     next := fun '(i, c) =>
       match next g c with
       | Done => Done
       | Throw m => Throw m
       | Skip c' => Skip (i, c')
       | Yield v c' => if i =? n then Done else Yield v (i + 1, c')
       end |}.

Definition takeWhile (fn : Predicate T) (g : GenFn T) : GenFn T :=
  {| cursor := cursor g;
     fresh := fresh g;
     next := fun c =>
       match next g c with
       | Done => Done
       | Throw m => Throw m
       | Skip c' => Skip c'
       | Yield v c' => if negb (fn v) then Done else Yield v c'
       end |}.

(** [let skip = n; for (item of gen()) { if (skip <= 0) yield item; skip-- }] *)
Definition skip (n : Z) (g : GenFn T) : GenFn T :=
  {| cursor := Z * cursor g;
     fresh := (n, fresh g);
     next := fun '(sk, c) =>
       match next g c with
       | Done => Done
       | Throw m => Throw m
       | Skip c' => Skip (sk, c')
       | Yield v c' =>
           if sk <=? 0 then Yield v (sk - 1, c') else Skip (sk - 1, c')
       end |}.

(** [for (item of gen()) { if (fn(item)) continue; yield item }]: the
    loop keeps no memory of an earlier item. *)
Definition skipWhile (fn : Predicate T) (g : GenFn T) : GenFn T :=
  {| cursor := cursor g;
     fresh := fresh g;
     next := fun c =>
       match next g c with
       | Done => Done
       | Throw m => Throw m
       | Skip c' => Skip c'
       | Yield v c' => if fn v then Skip c' else Yield v c'
       end |}.

(** [while (true) yield* gen()]: when the source ends it is invoked again. *)
Definition cycle (g : GenFn T) : GenFn T :=
  {| cursor := cursor g;
     fresh := fresh g;
     next := fun c =>
       match next g c with
       | Done => Skip (fresh g)
       | Throw m => Throw m
       | Skip c' => Skip c'
       | Yield v c' => Yield v c'
       end |}.

(** [while (true) yield item] *)
Definition repeat (item : T) : GenFn T :=
  {| cursor := unit;
     fresh := tt;
     next := fun c => Yield item c |}.

(** The loop [for (const item of it) acc = fn(acc, item)] run from
    cursor [c]. *)
Fixpoint fold_loop {U} (fn : U -> T -> U) (g : GenFn T) (fuel : nat)
    (c : cursor g) (acc : U) : Result U :=
  match fuel with
  | O => Timeout
  | S k =>
      match next g c with
      | Done => Ret acc
      | Throw m => Raise m
      | Skip c' => fold_loop fn g k c' acc
      | Yield v c' => fold_loop fn g k c' (fn acc v)
      end
  end.

(** [let acc = init; for (const item of gen()) acc = fn(acc, item);
    return acc] *)
Definition fold {U} (init : U) (fn : U -> T -> U) (g : GenFn T)
    (fuel : nat) : Result U :=
  fold_loop fn g fuel (fresh g) init.

(** [iterator.next()]: run to the first [yield], or to the end. *)
Fixpoint first_item (g : GenFn T) (fuel : nat) (c : cursor g)
  : Result (option (T * cursor g)) :=
  match fuel with
  | O => Timeout
  | S k =>
      match next g c with
      | Done => Ret None
      | Throw m => Raise m
      | Skip c' => first_item g k c'
      | Yield v c' => Ret (Some (v, c'))
      end
  end.

(** [const first = iterator.next(); if (first.done) return undefined;
    let acc = first.value; for (const item of iterator) acc = fn(acc, item);
    return acc] *)
Definition reduce (fn : T -> T -> T) (g : GenFn T) (fuel : nat)
  : Result (Option T) :=
  match first_item g fuel (fresh g) with
  | Ret None => Ret None
  | Ret (Some (v, c)) =>
      match fold_loop fn g fuel c v with
      | Ret acc => Ret (Some acc)
      | Raise m => Raise m
      | Timeout => Timeout
      end
  | Raise m => Raise m
  | Timeout => Timeout
  end.

(** [fold(0, (acc) => acc + 1)(gen)] *)
Definition count (g : GenFn T) (fuel : nat) : Result Z :=
  fold 0 (fun acc _ => acc + 1) g fuel.

(** [for (const item of gen()) if (fn(item)) return true; return false] *)
Fixpoint any_loop (fn : Predicate T) (g : GenFn T) (fuel : nat)
    (c : cursor g) : Result bool :=
  match fuel with
  | O => Timeout
  | S k =>
      match next g c with
      | Done => Ret false
      | Throw m => Raise m
      | Skip c' => any_loop fn g k c'
      | Yield v c' => if fn v then Ret true else any_loop fn g k c'
      end
  end.

Definition any (fn : Predicate T) (g : GenFn T) (fuel : nat) : Result bool :=
  any_loop fn g fuel (fresh g).

(** [for (const item of gen()) if (!fn(item)) return false; return true] *)
Fixpoint all_loop (fn : Predicate T) (g : GenFn T) (fuel : nat)
    (c : cursor g) : Result bool :=
  match fuel with
  | O => Timeout
  | S k =>
      match next g c with
      | Done => Ret true
      | Throw m => Raise m
      | Skip c' => all_loop fn g k c'
      | Yield v c' => if negb (fn v) then Ret false else all_loop fn g k c'
      end
  end.

Definition all (fn : Predicate T) (g : GenFn T) (fuel : nat) : Result bool :=
  all_loop fn g fuel (fresh g).

(** [for (const item of gen()) if (fn(item)) return item; return undefined] *)
Fixpoint find_loop (fn : Predicate T) (g : GenFn T) (fuel : nat)
    (c : cursor g) : Result (Option T) :=
  match fuel with
  | O => Timeout
  | S k =>
      match next g c with
      | Done => Ret None
      | Throw m => Raise m
      | Skip c' => find_loop fn g k c'
      | Yield v c' => if fn v then Ret (Some v) else find_loop fn g k c'
      end
  end.

Definition find (fn : Predicate T) (g : GenFn T) (fuel : nat)
  : Result (Option T) :=
  find_loop fn g fuel (fresh g).

(** [for (const item of gen()) fn(item)]: [fn] returns nothing, so what it
    does is an effect on the world [W] around it, passed along here. *)
Fixpoint forEach_loop {W} (fn : T -> W -> W) (g : GenFn T) (fuel : nat)
    (c : cursor g) (w : W) : Result W :=
  match fuel with
  | O => Timeout
  | S k =>
      match next g c with
      | Done => Ret w
      | Throw m => Raise m
      | Skip c' => forEach_loop fn g k c' w
      | Yield v c' => forEach_loop fn g k c' (fn v w)
      end
  end.

Definition forEach {W} (fn : T -> W -> W) (g : GenFn T) (fuel : nat) (w : W)
  : Result W :=
  forEach_loop fn g fuel (fresh g) w.

(** [export const some = any; export const every = all] *)
Definition some : Predicate T -> GenFn T -> nat -> Result bool := any.
Definition every : Predicate T -> GenFn T -> nat -> Result bool := all.

End Combinators.

End Utils.

(** ** src/iter/exact_sized.ts *)

Module ExactSizedIter.

Record t (T : Type) : Type := mk { _gen : GenFn T; _len : Z }.

Section Methods.
Context {T : Type}.

(** [*[Symbol.iterator]()]:
    [let i = 0; for (item of this._gen()) { if (i === this._len) break;
    yield item; i++ }] *)
Definition iterator (it : t T) : GenFn T :=
  {| cursor := Z * cursor (_gen it);
     fresh := (0, fresh (_gen it));
     next := fun '(i, c) =>
       match next (_gen it) c with
       | Done => Done
       | Throw m => Throw m
       | Skip c' => Skip (i, c')
       | Yield v c' => if i =? _len it then Done else Yield v (i + 1, c')
       end |}.

Definition len (it : t T) : Z := _len it.

Definition map {U} (fn : T -> U) (it : t T) : t U :=
  mk (Utils.map fn (_gen it)) (_len it).

Definition filter (fn : T -> bool) (it : t T) : t T :=
  mk (Utils.filter fn (_gen it)) (_len it).

Definition take (n : Z) (it : t T) : t T :=
  mk (Utils.take n (_gen it)) n.

Definition takeWhile (fn : Predicate T) (it : t T) : t T :=
  mk (Utils.takeWhile fn (_gen it)) (_len it).

Definition skip (n : Z) (it : t T) : t T :=
  mk (Utils.skip n (_gen it)) (_len it - n).

Definition skipWhile (fn : Predicate T) (it : t T) : t T :=
  mk (Utils.skipWhile fn (_gen it)) (_len it).

Definition enumerate (it : t T) : t (Z * T) :=
  mk (Utils.enumerate (_gen it)) (_len it).

Definition cycle (it : t T) : t T :=
  mk (Utils.cycle (_gen it)) (_len it).

End Methods.

End ExactSizedIter.

(** ** src/iter/iter.ts *)

Module Iter.

Record t (T : Type) : Type := mk { _gen : GenFn T }.

Section Methods.
Context {T : Type}.

(** [*[Symbol.iterator]() { yield* this._gen() }] *)
Definition iterator (it : t T) : GenFn T := _gen it.

Definition map {U} (fn : T -> U) (it : t T) : t U :=
  mk (Utils.map fn (_gen it)).

Definition filter (fn : T -> bool) (it : t T) : t T :=
  mk (Utils.filter fn (_gen it)).

(** [return new ExactSizedIter(take<T>(n)(this._gen), n)] *)
Definition take (n : Z) (it : t T) : ExactSizedIter.t T :=
  ExactSizedIter.mk (Utils.take n (_gen it)) n.

Definition takeWhile (fn : Predicate T) (it : t T) : t T :=
  mk (Utils.takeWhile fn (_gen it)).

Definition skip (n : Z) (it : t T) : t T :=
  mk (Utils.skip n (_gen it)).

Definition skipWhile (fn : Predicate T) (it : t T) : t T :=
  mk (Utils.skipWhile fn (_gen it)).

Definition fold {U} (init : U) (fn : U -> T -> U) (it : t T)
    (fuel : nat) : Result U :=
  Utils.fold init fn (_gen it) fuel.

Definition reduce (fn : T -> T -> T) (it : t T) (fuel : nat)
  : Result (Option T) :=
  Utils.reduce fn (_gen it) fuel.

Definition enumerate (it : t T) : t (Z * T) :=
  mk (Utils.enumerate (_gen it)).

Definition count (it : t T) (fuel : nat) : Result Z :=
  Utils.count (_gen it) fuel.

Definition cycle (it : t T) : t T :=
  mk (Utils.cycle (_gen it)).

Definition any (predicate : Predicate T) (it : t T) (fuel : nat) : Result bool :=
  Utils.any predicate (_gen it) fuel.

Definition all (predicate : Predicate T) (it : t T) (fuel : nat) : Result bool :=
  Utils.all predicate (_gen it) fuel.

Definition some (predicate : Predicate T) (it : t T) (fuel : nat) : Result bool :=
  Utils.some predicate (_gen it) fuel.

Definition every (predicate : Predicate T) (it : t T) (fuel : nat) : Result bool :=
  Utils.every predicate (_gen it) fuel.

Definition find (predicate : Predicate T) (it : t T) (fuel : nat)
  : Result (Option T) :=
  Utils.find predicate (_gen it) fuel.

Definition forEach {W} (fn : T -> W -> W) (it : t T) (fuel : nat) (w : W)
  : Result W :=
  Utils.forEach fn (_gen it) fuel w.

End Methods.

End Iter.

(** ** src/iter/double_ended.ts *)

Module DoubleEndedIter.

Record t (T : Type) : Type :=
  mk { _gen : GenFn T; _rgen : GenFn T; _len : Z }.

Section Methods.
Context {T : Type}.

(** [class DoubleEndedIter<T> extends ExactSizedIter<T>]: the part of
    the object the inherited methods see. *)
Definition super (it : t T) : ExactSizedIter.t T :=
  ExactSizedIter.mk (_gen it) (_len it).

(** Inherited from [ExactSizedIter]. *)
Definition iterator (it : t T) : GenFn T :=
  ExactSizedIter.iterator (super it).

Definition len (it : t T) : Z := ExactSizedIter.len (super it).

Definition rev (it : t T) : t T :=
  mk (_rgen it) (_gen it) (_len it).

Definition map {U} (fn : T -> U) (it : t T) : t U :=
  mk (Utils.map fn (_gen it)) (Utils.map fn (_rgen it)) (_len it).

Definition filter (fn : T -> bool) (it : t T) : t T :=
  mk (Utils.filter fn (_gen it)) (Utils.filter fn (_rgen it)) (_len it).

Definition take (n : Z) (it : t T) : t T :=
  mk (Utils.take n (_gen it)) (Utils.take n (_rgen it)) n.

Definition takeWhile (fn : Predicate T) (it : t T) : t T :=
  mk (Utils.takeWhile fn (_gen it)) (Utils.takeWhile fn (_rgen it))
     (_len it).

Definition skip (n : Z) (it : t T) : t T :=
  mk (Utils.skip n (_gen it)) (Utils.skip n (_rgen it)) (_len it - n).

Definition skipWhile (fn : Predicate T) (it : t T) : t T :=
  mk (Utils.skipWhile fn (_gen it)) (Utils.skipWhile fn (_rgen it))
     (_len it).

Definition enumerate (it : t T) : t (Z * T) :=
  mk (Utils.enumerate (_gen it)) (Utils.enumerate (_rgen it)) (_len it).

Definition cycle (it : t T) : t T :=
  mk (Utils.cycle (_gen it)) (Utils.cycle (_rgen it)) (_len it).

End Methods.

End DoubleEndedIter.

(** ** src/iter/mod.ts *)

Module Mod.

(** What [iter] tells apart in its input: a function, an array, a [Set]
    or a [Map] (its items, or its entries, in insertion order; [size] is
    their number), and any other iterable (its [Symbol.iterator]). *)
Inductive IterInput (T : Type) : Type :=
| AFunction (g : GenFn T)
| AnArray (a : list T)
| ASetOrMap (items : list T)
| AnIterable (g : GenFn T).

(** [type IterOutput<T> = Iter<T> | ExactSizedIter<T> | DoubleEndedIter<T>] *)
Inductive IterOutput (T : Type) : Type :=
| OfIter (it : Iter.t T)
| OfExactSized (it : ExactSizedIter.t T)
| OfDoubleEnded (it : DoubleEndedIter.t T).

Section Dispatch.
Context {T : Type}.

(** [for (let i = 0; i < input.length; i++) yield input[i]]; the test
    keeps [i] inside the array, so [input[i]] is an element of it. *)
Definition array_forward (input : list T) : GenFn T :=
  {| cursor := Z;
     fresh := 0;
     next := fun i =>
       if i <? Z.of_nat (length input)
       then match nth_error input (Z.to_nat i) with
            | Some v => Yield v (i + 1)
            | None => Done
            end
       else Done |}.

(** [for (let i = input.length - 1; i >= 0; i--) yield input[i]] *)
Definition array_backward (input : list T) : GenFn T :=
  {| cursor := Z;
     fresh := Z.of_nat (length input) - 1;
     next := fun i =>
       if i >=? 0
       then match nth_error input (Z.to_nat i) with
            | Some v => Yield v (i - 1)
            | None => Done
            end
       else Done |}.

(** [function* () { for (const item of input) yield item }] *)
Definition each (input : GenFn T) : GenFn T :=
  {| cursor := cursor input;
     fresh := fresh input;
     next := fun c =>
       match next input c with
       | Done => Done
       | Throw m => Throw m
       | Skip c' => Skip c'
       | Yield v c' => Yield v c'
       end |}.

Definition iter (input : IterInput T) : IterOutput T :=
  match input with
  | AFunction g => OfIter (Iter.mk g)
  | AnArray a =>
      OfDoubleEnded
        (DoubleEndedIter.mk (array_forward a) (array_backward a)
           (Z.of_nat (length a)))
  | ASetOrMap items =>
      OfExactSized
        (ExactSizedIter.mk (each (gen items)) (Z.of_nat (length items)))
  | AnIterable g => OfIter (Iter.mk (each g))
  end.

End Dispatch.

End Mod.

(** ** Numbers *)

(** The integers on which the arithmetic of doubles is the arithmetic of
    [Z]: a sum, a difference or a product of two of them whose value in
    [Z] is one of them again is computed exactly. *)
Definition exact_number (z : Z) : Prop := Z.abs z <= 2 ^ 53.

(** Arguments of a range small enough for every value the source
    computes from them to be an [exact_number]. *)
Definition small (z : Z) : Prop := Z.abs z <= 2 ^ 51.

(** The outcome of a constructor that may throw. *)
Inductive Except (A : Type) : Type :=
| Returned (a : A)
| Thrown (msg : string).

Arguments Returned {A} a.
Arguments Thrown {A} msg.

(** [Math.floor(x / y)] and [Math.ceil(x / y)] on integers, [y] not [0]
    ([Z.div] rounds down whatever the sign of [y]). *)
Definition floor_div (x y : Z) : Z := x / y.
Definition ceil_div (x y : Z) : Z := - ((- x) / y).

(** [r || step] on numbers: [0] is the falsy one. *)
Definition or_else (r step : Z) : Z := if r =? 0 then step else r.

(** ** src/range/range.ts: ranges as bare producers *)

Module RangeTs.

Definition getRangeParams (arg1 : Z) (arg2 : option Z) : Z * Z :=
  let end_ := match arg2 with Some v => v | None => arg1 end in
  let start := match arg2 with Some _ => arg1 | None => 0 end in
  (start, end_).

(** The body of the generator function [range] returns; the cursor is
    the loop variable [i].  [step] does not change, so testing it at
    every transition throws exactly when the test on entry does.
    [i += step] is the sum in [Z]: the sum of the source as long as it
    stays within [2^53] in absolute value. *)
Definition range_body (start end_ step : Z) : GenFn Z :=
  {| cursor := Z;
     fresh := start;
     next := fun i =>
       if step =? 0 then Throw "Step cannot be 0"
       else
         let min := Z.min start end_ in
         if (if min =? start then i <? end_ else i >? end_)
         then Yield i (i + step)
         else Done |}.

Definition range (arg1 : Z) (arg2 : option Z) (step : option Z) : GenFn Z :=
  let step := match step with Some s => s | None => 1 end in
  let '(start, end_) := getRangeParams arg1 arg2 in
  range_body start end_ step.

Definition irange (arg1 : Z) (arg2 : option Z) (step : option Z) : GenFn Z :=
  let step := match step with Some s => s | None => 1 end in
  let '(start, end_) := getRangeParams arg1 arg2 in
  range start (Some (end_ + step)) (Some step).

End RangeTs.

(** ** src/iter/utils.ts: [range] and [irange] over [_range] *)

Module UtilsRange.

Definition range (arg1 : Z) (arg2 : option Z) (step : option Z)
  : Except (DoubleEndedIter.t Z) :=
  let step := match step with Some s => s | None => 1 end in
  let '(start, end_) := RangeTs.getRangeParams arg1 arg2 in
  if step =? 0 then Thrown "Step cannot be 0"
  else if ((step >? 0) && (start >=? end_)) || ((step <? 0) && (start <=? end_))
  then Returned (DoubleEndedIter.mk
                   (RangeTs.range 0 (Some 0) None)
                   (RangeTs.range 0 (Some 0) None) 0)
  else
    let last := end_ - or_else (Z.rem (end_ - start) step) step in
    Returned (DoubleEndedIter.mk
                (RangeTs.range start (Some end_) (Some step))
                (RangeTs.range last (Some (start - step)) (Some (- step)))
                (ceil_div (Z.abs (end_ - start)) (Z.abs step))).

(** [return range(start, end + step, step)] *)
Definition irange (arg1 : Z) (arg2 : option Z) (step : option Z)
  : Except (DoubleEndedIter.t Z) :=
  let step := match step with Some s => s | None => 1 end in
  let '(start, end_) := RangeTs.getRangeParams arg1 arg2 in
  range start (Some (end_ + step)) (Some step).

End UtilsRange.

(** ** src/iter/range.ts *)

Module IterRange.

(** [rangeGen(start, end, step = 1)]; the cursor is the loop variable.
    [i += step] is the sum in [Z]: the sum of the source as long as it
    stays within [2^53] in absolute value. *)
Definition rangeGen (start end_ step : Z) : GenFn Z :=
  {| cursor := Z;
     fresh := start;
     next := fun i =>
       if step =? 0 then Throw "Step cannot be 0"
       else
         let min := Z.min start end_ in
         if (if min =? start then i <? end_ else i >? end_)
         then Yield i (i + step)
         else Done |}.

Definition getRangeParams (arg1 : Z) (arg2 : option Z) : Z * Z :=
  let end_ := match arg2 with Some v => v | None => arg1 end in
  let start := match arg2 with Some _ => arg1 | None => 0 end in
  (start, end_).

(** The test of [step] and the guard are comparisons, the same on
    doubles and on [Z]; [end - start], [%], the quotient and [last] are
    those of [Z], which are those of the source as long as the arguments
    keep them within [2^53] in absolute value. *)
Definition range (arg1 : Z) (arg2 : option Z) (step : option Z)
  : Except (DoubleEndedIter.t Z) :=
  let step := match step with Some s => s | None => 1 end in
  let '(start, end_) := getRangeParams arg1 arg2 in
  if step =? 0 then Thrown "Step cannot be 0"
  else if ((step >? 0) && (start >=? end_)) || ((step <? 0) && (start <=? end_))
  then Returned (DoubleEndedIter.mk (rangeGen 0 0 1) (rangeGen 0 0 1) 0)
  else
    let last := end_ - or_else (Z.rem (end_ - start) step) step in
    Returned (DoubleEndedIter.mk
                (rangeGen start end_ step)
                (rangeGen last (start - step) (- step))
                (ceil_div (Z.abs (end_ - start)) (Z.abs step))).

(** [last] and the length are computed in [Z]: they are those of the
    source as long as the arguments keep them within [2^53] in absolute
    value. *)
Definition irange (arg1 : Z) (arg2 : option Z) (step : option Z)
  : Except (DoubleEndedIter.t Z) :=
  let step := match step with Some s => s | None => 1 end in
  let '(start, end_) := getRangeParams arg1 arg2 in
  if step =? 0 then Thrown "Step cannot be 0"
  else
    let last :=
      if step >? 0
      then start + floor_div (end_ - start) step * step
      else start + ceil_div (end_ - start) step * step in
    Returned (DoubleEndedIter.mk
                (rangeGen start (last + step) step)
                (rangeGen last (start - step) (- step))
                (floor_div (Z.abs (end_ - start)) (Z.abs step) + 1)).

End IterRange.

(** ** Specification-side lists *)

(** [zseq a d n] is [a; a + d; ...; a + (n - 1) * d]. *)
Fixpoint zseq (a d : Z) (n : nat) : list Z :=
  match n with
  | O => []
  | S k => a :: zseq (a + d) d k
  end.

(** The maximal leading run on which [fn] holds is dropped, the rest is
    kept whole: what [skipWhile] is specified to do. *)
Fixpoint drop_leading {T} (fn : T -> bool) (l : list T) : list T :=
  match l with
  | [] => []
  | x :: r => if fn x then drop_leading fn r else l
  end.

(** [n] copies of [l], one after the other. *)
Fixpoint copies {T} (n : nat) (l : list T) : list T :=
  match n with
  | O => []
  | S k => l ++ copies k l
  end.

(** The maximal leading run on which [fn] holds. *)
Fixpoint take_leading {T} (fn : T -> bool) (l : list T) : list T :=
  match l with
  | [] => []
  | x :: r => if fn x then x :: take_leading fn r else []
  end.

(** What a loop that runs the source to its end returns: [a] if the
    source ends, and otherwise whatever stops the source. *)
Definition settle {A} (st : Status) (a : A) : Result A :=
  match st with
  | Finished => Ret a
  | Threw m => Raise m
  | Pending => Timeout
  end.

(** The two producers of a double-ended iterator mirror each other on
    [l]: the forward one yields [l], the reverse one yields [l] backwards. *)
Definition Mirrored {T} (it : DoubleEndedIter.t T) (l : list T) : Prop :=
  Yields (DoubleEndedIter._gen it) l /\
  Yields (DoubleEndedIter._rgen it) (rev l).

(** The step cannot reach [end_] from [start]: the guard of [range]. *)
Definition unreachable (start end_ step : Z) : bool :=
  ((step >? 0) && (start >=? end_)) || ((step <? 0) && (start <=? end_)).

(** The number of elements specified for [range(start, end, step)]:
    [ceil(|end - start| / |step|)], or [0] on direction mismatch. *)
Definition range_size (start end_ step : Z) : nat :=
  if unreachable start end_ step then O
  else Z.to_nat (ceil_div (Z.abs (end_ - start)) (Z.abs step)).

(** The number of elements specified for [irange(start, end, step)]:
    [floor(|end - start| / |step|) + 1]. *)
Definition irange_size (start end_ step : Z) : nat :=
  Z.to_nat (floor_div (Z.abs (end_ - start)) (Z.abs step) + 1).

(** The number of elements the producers of the [irange] of
    src/iter/range.ts yield when the step points from [start] to [end_]:
    one more than the rounded quotient the source computes [last] from. *)
Definition irange_yielded (start end_ step : Z) : Z :=
  (if step >? 0 then floor_div (end_ - start) step
   else ceil_div (end_ - start) step) + 1.

(** The items [r] yielded before the traversal whose outcome is [p]. *)
Definition prepend {T} (r : list T) (p : list T * Status) : list T * Status :=
  (r ++ fst p, snd p).

(** * Draining *)

Section Drain.
Context {T : Type}.
Variable g : GenFn T.

Lemma drain_more (k : nat) :
  forall (c : cursor g) l st,
    drain g k c = (l, st) -> st <> Pending ->
    forall j, drain g (k + j) c = (l, st).
Proof.
  induction k as [|k IH]; intros c l st H Hst j; simpl in *.
  - inversion H; subst; congruence.
  - destruct (next g c) as [|m|c'|v c']; auto.
    destruct (drain g k c') as [l' st'] eqn:E.
    inversion H; subst.
    rewrite (IH _ _ _ E Hst j); reflexivity.
Qed.

Lemma drain_le (k k' : nat) (c : cursor g) l st :
  drain g k c = (l, st) -> st <> Pending -> (k <= k')%nat ->
  drain g k' c = (l, st).
Proof.
  intros H Hst Hle.
  replace k' with (k + (k' - k))%nat by lia.
  now apply drain_more.
Qed.

Lemma drain_finished_unique (k k' : nat) (c : cursor g) l l' st' :
  drain g k c = (l, Finished) -> drain g k' c = (l', st') ->
  st' <> Pending -> l' = l /\ st' = Finished.
Proof.
  intros H H' Hst.
  assert (E : drain g (Nat.max k k') c = (l, Finished))
    by (eapply drain_le; eauto using Nat.le_max_l; discriminate).
  assert (E' : drain g (Nat.max k k') c = (l', st'))
    by (eapply drain_le; eauto using Nat.le_max_r).
  rewrite E in E'; inversion E'; auto.
Qed.

Lemma Yields_unique (l l' : list T) :
  Yields g l -> Yields g l' -> l = l'.
Proof.
  intros [k H] [k' H'].
  eapply drain_finished_unique in H'; [| exact H | discriminate ].
  now destruct H'.
Qed.

Lemma NeverEnds_not_Yields : NeverEnds g -> forall l, ~ Yields g l.
Proof.
  intros Hn l [k H]. specialize (Hn k). rewrite H in Hn. discriminate.
Qed.

End Drain.

Lemma drain_S {T} (g : GenFn T) (k : nat) (c : cursor g) :
  drain g (S k) c =
    match next g c with
    | Done => ([], Finished)
    | Throw m => ([], Threw m)
    | Skip c' => drain g k c'
    | Yield v c' => let (l, st) := drain g k c' in (v :: l, st)
    end.
Proof. reflexivity. Qed.

Lemma let_prepend {T} (v : T) (p : list T * Status) :
  (let (l, st) := p in (v :: l, st)) = prepend [v] p.
Proof. now destruct p. Qed.

Lemma prepend_nil {T} (p : list T * Status) : prepend [] p = p.
Proof. now destruct p. Qed.

Lemma prepend_app {T} (r1 r2 : list T) (p : list T * Status) :
  prepend r1 (prepend r2 p) = prepend (r1 ++ r2) p.
Proof. unfold prepend; cbn [fst snd]. now rewrite app_assoc. Qed.

Lemma gen_drain {T} (l0 l : list T) :
  drain (gen l0) (S (length l)) l = (l, Finished).
Proof.
  induction l as [|x r IH]; [reflexivity|].
  change (drain (gen l0) (S (length (x :: r))) (x :: r))
    with (let (l', st) := drain (gen l0) (S (length r)) r in (x :: l', st)).
  now rewrite IH.
Qed.

Lemma gen_Yields {T} (l : list T) : Yields (gen l) l.
Proof. exists (S (length l)). apply gen_drain. Qed.

(** * Arithmetic sequences *)

Lemma zseq_length a d n : length (zseq a d n) = n.
Proof. revert a; induction n; intros; simpl; auto. Qed.

Lemma zseq_snoc a d n :
  zseq a d (S n) = zseq a d n ++ [a + Z.of_nat n * d].
Proof.
  revert a; induction n as [|n IH]; intros a.
  - simpl. f_equal. lia.
  - change (zseq a d (S (S n))) with (a :: zseq (a + d) d (S n)).
    rewrite IH.
    replace (a + Z.of_nat (S n) * d) with (a + d + Z.of_nat n * d) by lia.
    reflexivity.
Qed.

Lemma zseq_rev a d n :
  rev (zseq a d n) = zseq (a + (Z.of_nat n - 1) * d) (- d) n.
Proof.
  revert a; induction n as [|n IH]; intros a; [reflexivity|].
  rewrite zseq_snoc, rev_app_distr, IH, Nat2Z.inj_succ.
  cbn [rev app zseq]. f_equal; [lia|]. f_equal. lia.
Qed.

(** * The range generator *)

Section RangeGen.
Import IterRange.
Variables start end_ step : Z.

Lemma rangeGen_next_up i :
  step <> 0 -> start <= end_ ->
  next (rangeGen start end_ step) i =
    if i <? end_ then Yield i (i + step) else Done.
Proof.
  intros Hs Hle. unfold rangeGen; cbn [next].
  destruct (Z.eqb_spec step 0); [contradiction|].
  rewrite Z.min_l, Z.eqb_refl by lia. reflexivity.
Qed.

Lemma rangeGen_next_down i :
  step <> 0 -> end_ < start ->
  next (rangeGen start end_ step) i =
    if i >? end_ then Yield i (i + step) else Done.
Proof.
  intros Hs Hlt. unfold rangeGen; cbn [next].
  destruct (Z.eqb_spec step 0); [contradiction|].
  rewrite Z.min_r by lia.
  destruct (Z.eqb_spec end_ start); [lia | reflexivity].
Qed.

(** Counting up towards [end_]. *)
Lemma drain_rangeGen_up :
  0 < step -> start <= end_ ->
  forall n i,
    end_ <= i + Z.of_nat n * step ->
    (n <> O -> i + (Z.of_nat n - 1) * step < end_) ->
    drain (rangeGen start end_ step) (S n) i = (zseq i step n, Finished).
Proof.
  intros Hs Hle. induction n as [|n IH]; intros i Hge Hlt.
  - rewrite drain_S, rangeGen_next_up by lia.
    destruct (Z.ltb_spec i end_); [lia | reflexivity].
  - rewrite drain_S, rangeGen_next_up by lia.
    destruct (Z.ltb_spec i end_); [| specialize (Hlt ltac:(lia)); nia].
    rewrite IH; [reflexivity | lia |].
    intros Hn. specialize (Hlt ltac:(lia)). lia.
Qed.

(** Counting down towards [end_]. *)
Lemma drain_rangeGen_down :
  step < 0 -> end_ < start ->
  forall n i,
    i + Z.of_nat n * step <= end_ ->
    (n <> O -> end_ < i + (Z.of_nat n - 1) * step) ->
    drain (rangeGen start end_ step) (S n) i = (zseq i step n, Finished).
Proof.
  intros Hs Hle. induction n as [|n IH]; intros i Hge Hlt.
  - rewrite drain_S, rangeGen_next_down by lia.
    destruct (Z.gtb_spec i end_); [lia | reflexivity].
  - rewrite drain_S, rangeGen_next_down by lia.
    destruct (Z.gtb_spec i end_); [| specialize (Hlt ltac:(lia)); nia].
    rewrite IH; [reflexivity | lia |].
    intros Hn. specialize (Hlt ltac:(lia)). lia.
Qed.

(** The test looks up while the step goes down: the loop never ends. *)
Lemma drain_rangeGen_runaway_down :
  step < 0 -> start <= end_ ->
  forall k i, i < end_ ->
    drain (rangeGen start end_ step) k i = (zseq i step k, Pending).
Proof.
  intros Hs Hle. induction k as [|k IH]; intros i Hi; [reflexivity|].
  rewrite drain_S, rangeGen_next_up by lia.
  destruct (Z.ltb_spec i end_); [| lia].
  rewrite IH by lia. reflexivity.
Qed.

(** The test looks down while the step goes up: the loop never ends. *)
Lemma drain_rangeGen_runaway_up :
  0 < step -> end_ < start ->
  forall k i, end_ < i ->
    drain (rangeGen start end_ step) k i = (zseq i step k, Pending).
Proof.
  intros Hs Hle. induction k as [|k IH]; intros i Hi; [reflexivity|].
  rewrite drain_S, rangeGen_next_down by lia.
  destruct (Z.gtb_spec i end_); [| lia].
  rewrite IH by lia. reflexivity.
Qed.

Lemma rangeGen_empty : start = end_ -> step <> 0 ->
  Yields (rangeGen start end_ step) [].
Proof.
  intros Heq Hs. exists 1%nat. rewrite drain_S, rangeGen_next_up by lia.
  change (fresh (rangeGen start end_ step)) with start.
  destruct (Z.ltb_spec start end_); [lia | reflexivity].
Qed.

End RangeGen.

(** * Rounding *)

Lemma ceil_div_bounds d st :
  0 < d -> 0 < st ->
  0 < ceil_div d st /\ d <= ceil_div d st * st /\ (ceil_div d st - 1) * st < d.
Proof.
  intros Hd Hs. unfold ceil_div.
  pose proof (Z.div_mod (- d) st ltac:(lia)) as E.
  pose proof (Z.mod_pos_bound (- d) st Hs) as B.
  nia.
Qed.

Lemma floor_div_bounds d st :
  0 <= d -> 0 < st ->
  0 <= floor_div d st /\ floor_div d st * st <= d /\ d < (floor_div d st + 1) * st.
Proof.
  intros Hd Hs. unfold floor_div.
  pose proof (Z.div_mod d st ltac:(lia)) as E.
  pose proof (Z.mod_pos_bound d st Hs) as B.
  nia.
Qed.

(** The distance from the last value of the range to its [end], as
    [range] computes it, when the step goes up. *)
Lemma or_else_rem_up d st :
  0 < d -> 0 < st ->
  or_else (Z.rem d st) st = d - (ceil_div d st - 1) * st.
Proof.
  intros Hd Hs.
  destruct (ceil_div_bounds Hd Hs) as (Hn & Hge & Hlt).
  pose proof (Z.quot_rem' d st) as E.
  pose proof (Z.rem_bound_pos d st ltac:(lia) Hs) as B.
  unfold or_else. destruct (Z.eqb_spec (Z.rem d st) 0) as [R0|R0].
  - rewrite R0 in E.
    assert (d ÷ st = ceil_div d st) by nia. nia.
  - assert (d ÷ st = ceil_div d st - 1) by nia. nia.
Qed.

(** The same when the step goes down. *)
Lemma or_else_rem_down d st :
  d < 0 -> st < 0 ->
  or_else (Z.rem d st) st = d - (ceil_div (- d) (- st) - 1) * st.
Proof.
  intros Hd Hs.
  pose proof (@or_else_rem_up (- d) (- st) ltac:(lia) ltac:(lia)) as U.
  rewrite Z.rem_opp_opp in U by lia.
  unfold or_else in *.
  destruct (Z.eqb_spec (Z.rem d st) 0) as [R0|R0];
    destruct (Z.eqb_spec (- Z.rem d st) 0); lia.
Qed.

(** * The exclusive range *)

Section Range.
Import IterRange.
Variables start end_ step : Z.
Hypothesis step_nz : step <> 0.

Lemma range_unreachable :
  unreachable start end_ step = true ->
  range start (Some end_) (Some step) =
    Returned (DoubleEndedIter.mk (rangeGen 0 0 1) (rangeGen 0 0 1) 0).
Proof.
  intros H. unfold range, getRangeParams.
  destruct (Z.eqb_spec step 0); [contradiction|].
  unfold unreachable in H. rewrite H. reflexivity.
Qed.

Lemma range_reachable :
  unreachable start end_ step = false ->
  range start (Some end_) (Some step) =
    Returned (DoubleEndedIter.mk
      (rangeGen start end_ step)
      (rangeGen (end_ - or_else (Z.rem (end_ - start) step) step)
                (start - step) (- step))
      (ceil_div (Z.abs (end_ - start)) (Z.abs step))).
Proof.
  intros H. unfold range, getRangeParams.
  destruct (Z.eqb_spec step 0); [contradiction|].
  unfold unreachable in H. rewrite H. reflexivity.
Qed.

(** Whatever the arguments, the forward producer of [range] yields the
    arithmetic sequence of [range_size] terms, the reverse producer
    yields it backwards, and the declared length is its length. *)
Lemma range_exact :
  exists it,
    range start (Some end_) (Some step) = Returned it /\
    Yields (DoubleEndedIter._gen it)
           (zseq start step (range_size start end_ step)) /\
    Yields (DoubleEndedIter._rgen it)
           (rev (zseq start step (range_size start end_ step))) /\
    DoubleEndedIter.len it = Z.of_nat (range_size start end_ step).
Proof.
  unfold range_size.
  destruct (unreachable start end_ step) eqn:U.
  - rewrite (range_unreachable U). eexists; split; [reflexivity|].
    cbn [DoubleEndedIter._gen DoubleEndedIter._rgen zseq rev].
    repeat split; apply rangeGen_empty; lia.
  - rewrite (range_reachable U). eexists; split; [reflexivity|].
    cbn [DoubleEndedIter._gen DoubleEndedIter._rgen].
    unfold DoubleEndedIter.len, ExactSizedIter.len; cbn.
    unfold unreachable in U.
    destruct (Z.lt_trichotomy step 0) as [Hs|[Hs|Hs]]; [| contradiction |].
    + (* the step goes down *)
      assert (Hd : end_ < start) by lia.
      rewrite (Z.abs_neq step), (Z.abs_neq (end_ - start)) by lia.
      rewrite or_else_rem_down by lia.
      destruct (@ceil_div_bounds (- (end_ - start)) (- step)) as (Hn & Hge & Hlt);
        [lia | lia |].
      set (n := ceil_div (- (end_ - start)) (- step)) in *.
      rewrite zseq_rev, Z2Nat.id by lia.
      replace (end_ - (end_ - start - (n - 1) * step))
        with (start + (n - 1) * step) by lia.
      repeat split.
      * exists (S (Z.to_nat n)). apply drain_rangeGen_down; lia.
      * exists (S (Z.to_nat n)).
        apply (@drain_rangeGen_up (start + (n - 1) * step)); nia.
    + (* the step goes up *)
      assert (Hd : start < end_) by lia.
      rewrite (Z.abs_eq step), (Z.abs_eq (end_ - start)) by lia.
      rewrite or_else_rem_up by lia.
      destruct (@ceil_div_bounds (end_ - start) step) as (Hn & Hge & Hlt);
        [lia | lia |].
      set (n := ceil_div (end_ - start) step) in *.
      rewrite zseq_rev, Z2Nat.id by lia.
      replace (end_ - (end_ - start - (n - 1) * step))
        with (start + (n - 1) * step) by lia.
      repeat split.
      * exists (S (Z.to_nat n)). apply drain_rangeGen_up; lia.
      * exists (S (Z.to_nat n)).
        apply (@drain_rangeGen_down (start + (n - 1) * step)); nia.
Qed.

(** In the words of the property: whatever the forward producer of
    [range] yields, the reverse producer yields reversed, and the
    declared length is the number of items. *)
Lemma range_reverse_is_reversal :
  exists it,
    range start (Some end_) (Some step) = Returned it /\
    exists l,
      Yields (DoubleEndedIter._gen it) l /\
      Yields (DoubleEndedIter._rgen it) (rev l) /\
      DoubleEndedIter.len it = Z.of_nat (length l).
Proof.
  destruct range_exact as (it & E & F & R & L).
  exists it. split; [exact E|].
  exists (zseq start step (range_size start end_ step)).
  rewrite zseq_length. auto.
Qed.

End Range.

(** * The inclusive range of src/iter/range.ts *)

Section IRange.
Import IterRange.
Variables start end_ step : Z.
Hypothesis step_nz : step <> 0.

Lemma irange_unfold :
  irange start (Some end_) (Some step) =
    let last :=
      if step >? 0
      then start + floor_div (end_ - start) step * step
      else start + ceil_div (end_ - start) step * step in
    Returned (DoubleEndedIter.mk
                (rangeGen start (last + step) step)
                (rangeGen last (start - step) (- step))
                (floor_div (Z.abs (end_ - start)) (Z.abs step) + 1)).
Proof.
  unfold irange, getRangeParams.
  destruct (Z.eqb_spec step 0); [contradiction | reflexivity].
Qed.

(** The declared length is always the formula of the property. *)
Lemma irange_len_value :
  forall it, irange start (Some end_) (Some step) = Returned it ->
    DoubleEndedIter.len it = Z.of_nat (irange_size start end_ step).
Proof.
  intros it. rewrite irange_unfold. intros E; inversion E; subst it; clear E.
  unfold DoubleEndedIter.len, ExactSizedIter.len, irange_size, floor_div; cbn.
  pose proof (Z.div_pos (Z.abs (end_ - start)) (Z.abs step)). lia.
Qed.

Hypothesis agreeing :
  (0 < step /\ start <= end_) \/ (step < 0 /\ end_ <= start).

Lemma irange_yielded_pos : 0 < irange_yielded start end_ step.
Proof.
  unfold irange_yielded, floor_div, ceil_div.
  destruct agreeing as [[Hs Hd]|[Hs Hd]].
  - destruct (Z.gtb_spec step 0); [| lia].
    pose proof (Z.div_pos (end_ - start) step). lia.
  - destruct (Z.gtb_spec step 0); [lia |].
    pose proof (Z.div_mod (- (end_ - start)) step ltac:(lia)).
    pose proof (Z.mod_neg_bound (- (end_ - start)) step Hs).
    nia.
Qed.

(** With the step pointing the right way, the two producers of
    [irange] yield one arithmetic sequence, forwards and backwards. *)
Lemma irange_agreeing :
  exists it,
    irange start (Some end_) (Some step) = Returned it /\
    Yields (DoubleEndedIter._gen it)
           (zseq start step (Z.to_nat (irange_yielded start end_ step))) /\
    Yields (DoubleEndedIter._rgen it)
           (rev (zseq start step (Z.to_nat (irange_yielded start end_ step)))).
Proof.
  pose proof irange_yielded_pos as Hpos.
  rewrite irange_unfold. eexists; split; [reflexivity|].
  cbn [DoubleEndedIter._gen DoubleEndedIter._rgen].
  rewrite zseq_rev, Z2Nat.id by lia.
  unfold irange_yielded in *.
  destruct agreeing as [[Hs Hd]|[Hs Hd]].
  - destruct (Z.gtb_spec step 0); [| lia].
    set (q := floor_div (end_ - start) step) in *.
    replace (start + (q + 1 - 1) * step) with (start + q * step) by lia.
    split.
    + exists (S (Z.to_nat (q + 1))). apply drain_rangeGen_up; nia.
    + exists (S (Z.to_nat (q + 1))).
      apply (@drain_rangeGen_down (start + q * step)); nia.
  - destruct (Z.gtb_spec step 0); [lia |].
    set (q := ceil_div (end_ - start) step) in *.
    replace (start + (q + 1 - 1) * step) with (start + q * step) by lia.
    split.
    + exists (S (Z.to_nat (q + 1))). apply drain_rangeGen_down; nia.
    + exists (S (Z.to_nat (q + 1))).
      apply (@drain_rangeGen_up (start + q * step)); nia.
Qed.

Lemma irange_reverse_is_reversal :
  exists it,
    irange start (Some end_) (Some step) = Returned it /\
    exists l,
      Yields (DoubleEndedIter._gen it) l /\
      Yields (DoubleEndedIter._rgen it) (rev l).
Proof.
  destruct irange_agreeing as (it & E & F & R).
  exists it. split; [exact E|]. eauto.
Qed.

(** The declared length is that number when the step goes up, and when
    it goes down and divides the distance. *)
Lemma irange_len_agreeing :
  0 < step \/ (step | end_ - start) ->
  forall it, irange start (Some end_) (Some step) = Returned it ->
    DoubleEndedIter.len it = irange_yielded start end_ step.
Proof.
  intros Hdiv it. rewrite irange_unfold. intros E; inversion E; subst it; clear E.
  unfold DoubleEndedIter.len, ExactSizedIter.len; cbn.
  unfold irange_yielded, floor_div, ceil_div.
  destruct agreeing as [[Hs Hd]|[Hs Hd]].
  - destruct (Z.gtb_spec step 0); [| lia].
    rewrite !Z.abs_eq by lia. reflexivity.
  - destruct (Z.gtb_spec step 0); [lia |].
    destruct Hdiv as [? | Hdiv]; [lia|].
    rewrite (Z.abs_neq step), (Z.abs_neq (end_ - start)) by lia.
    rewrite Z.div_opp_opp by lia.
    apply Z.mod_divide in Hdiv; [| lia].
    rewrite Z.div_opp_l_z by lia. lia.
Qed.

(** Going down without dividing the distance, the declared length is
    one short of what is yielded. *)
Lemma irange_len_down_short :
  step < 0 -> ~ (step | end_ - start) ->
  forall it, irange start (Some end_) (Some step) = Returned it ->
    DoubleEndedIter.len it = irange_yielded start end_ step - 1.
Proof.
  intros Hs Hdiv it. rewrite irange_unfold. intros E; inversion E; subst it; clear E.
  unfold DoubleEndedIter.len, ExactSizedIter.len; cbn.
  unfold irange_yielded, floor_div, ceil_div.
  destruct (Z.gtb_spec step 0); [lia |].
  destruct agreeing as [[? ?]|[_ Hd]]; [lia|].
  rewrite (Z.abs_neq step), (Z.abs_neq (end_ - start)) by lia.
  rewrite Z.div_opp_opp by lia.
  rewrite Z.div_opp_l_nz; [lia | lia |].
  intros Hm. apply Hdiv. apply Z.mod_divide; [lia | exact Hm].
Qed.

End IRange.

(** * The constructors of src/iter/utils.ts *)

(** [range] is written twice, over [rangeGen] and over [_range]; the two
    are the same function. *)
Lemma UtilsRange_range_same arg1 arg2 step :
  UtilsRange.range arg1 arg2 step = IterRange.range arg1 arg2 step.
Proof. reflexivity. Qed.

(** The [irange] of src/iter/utils.ts is the exclusive range up to
    [end + step]. *)
Lemma UtilsRange_irange_delegates start end_ step :
  UtilsRange.irange start (Some end_) (Some step)
    = IterRange.range start (Some (end_ + step)) (Some step).
Proof. reflexivity. Qed.

(** When the step points from [start] to [end_] and divides the
    distance, the two [irange] agree: the same forward sequence, the same
    reverse sequence, the same declared length. *)
Lemma irange_constructors_agree_when_exact start end_ step :
  (0 < step /\ start <= end_) \/ (step < 0 /\ end_ <= start) ->
  (step | end_ - start) ->
  exists it1 it2 l,
    IterRange.irange start (Some end_) (Some step) = Returned it1 /\
    UtilsRange.irange start (Some end_) (Some step) = Returned it2 /\
    Yields (DoubleEndedIter._gen it1) l /\
    Yields (DoubleEndedIter._gen it2) l /\
    Yields (DoubleEndedIter._rgen it1) (rev l) /\
    Yields (DoubleEndedIter._rgen it2) (rev l) /\
    DoubleEndedIter.len it1 = DoubleEndedIter.len it2.
Proof.
  intros Hdir [q Hq].
  assert (Hs : step <> 0) by lia.
  destruct (@irange_agreeing start end_ step Hs Hdir) as (it1 & E1 & F1 & R1).
  pose proof (@irange_len_agreeing start end_ step Hs Hdir
                (or_intror (ex_intro _ q Hq)) it1 E1) as L1.
  destruct (@range_exact start (end_ + step) step Hs) as (it2 & E2 & F2 & R2 & L2).
  assert (N : range_size start (end_ + step) step
              = Z.to_nat (irange_yielded start end_ step)).
  { unfold range_size, unreachable, irange_yielded, floor_div, ceil_div.
    destruct Hdir as [[Hp Hd]|[Hn Hd]].
    - destruct (Z.gtb_spec step 0); [| lia].
      destruct (Z.geb_spec start (end_ + step)); [lia|].
      destruct (Z.ltb_spec step 0); [lia|]. cbn [andb orb].
      rewrite !Z.abs_eq by lia.
      replace (- (end_ + step - start)) with ((- (q + 1)) * step) by lia.
      rewrite Hq, !Z.div_mul by lia. f_equal; lia.
    - destruct (Z.gtb_spec step 0); [lia |].
      destruct (Z.ltb_spec step 0); [| lia].
      destruct (Z.leb_spec start (end_ + step)); [lia|]. cbn [andb orb].
      rewrite (Z.abs_neq step), (Z.abs_neq (end_ + step - start)) by nia.
      replace (- - (end_ + step - start)) with ((- (q + 1)) * - step) by lia.
      replace (- (end_ - start)) with ((- q) * step) by lia.
      rewrite !Z.div_mul by lia. f_equal; lia. }
  rewrite N in *.
  assert (Hpos : 0 < irange_yielded start end_ step)
    by now apply irange_yielded_pos.
  exists it1, it2, (zseq start step (Z.to_nat (irange_yielded start end_ step))).
  rewrite UtilsRange_irange_delegates.
  repeat split; try assumption. rewrite L1, L2. lia.
Qed.

(** * Ranges: what the constructors guarantee *)

Module RangeClaims.
Import IterRange.

(** C1, at [irange(5, 2, 1)]: [floor((2 - 5) / 1)] is [-3], so [last] is
    [2]; the forward producer is [rangeGen(5, 3, 1)], which tests
    [i > 3] while [i] grows, and the reverse producer is
    [rangeGen(2, 4, -1)], which tests [i < 4] while [i] shrinks.  Neither
    ends: after [k] transitions the forward producer has yielded
    [5, 6, ..., 5 + k - 1] and the reverse one [2, 1, ..., 2 - k + 1],
    so there is no forward sequence for the reverse producer to be the
    reversal of. *)
Theorem irange_5_2_1_never_ends :
  exists it,
    irange 5 (Some 2) (Some 1) = Returned it /\
    (forall k, drain (DoubleEndedIter._gen it) k (fresh (DoubleEndedIter._gen it))
               = (zseq 5 1 k, Pending)) /\
    (forall k, drain (DoubleEndedIter._rgen it) k (fresh (DoubleEndedIter._rgen it))
               = (zseq 2 (-1) k, Pending)) /\
    (forall l, ~ Yields (DoubleEndedIter._gen it) l) /\
    (forall l, ~ Yields (DoubleEndedIter._rgen it) l).
Proof.
  eexists; split; [reflexivity|].
  cbn [DoubleEndedIter._gen DoubleEndedIter._rgen].
  assert (F : forall k, drain (rangeGen 5 3 1) k 5 = (zseq 5 1 k, Pending))
    by (intros k; apply drain_rangeGen_runaway_up; lia).
  assert (R : forall k, drain (rangeGen 2 4 (-1)) k 2 = (zseq 2 (-1) k, Pending))
    by (intros k; apply drain_rangeGen_runaway_down; lia).
  repeat split; try assumption.
  - apply NeverEnds_not_Yields. intros k. cbn [fresh rangeGen]. now rewrite F.
  - apply NeverEnds_not_Yields. intros k. cbn [fresh rangeGen]. now rewrite R.
Qed.

(** C2, at [irange(5, 4, 3)] and [irange(10, 1, -2)].  For the first,
    [last] is [5 + floor(-1 / 3) * 3 = 2], the forward producer is
    [rangeGen(5, 5, 3)] and yields nothing, and the declared length is
    [floor(1 / 3) + 1 = 1].  For the second, [last] is
    [10 + ceil(-9 / -2) * -2 = 0], the forward producer yields the six
    values [10, 8, 6, 4, 2, 0], and the declared length is
    [floor(9 / 2) + 1 = 5]. *)
Theorem irange_len_not_exact :
  (exists it,
     irange 5 (Some 4) (Some 3) = Returned it /\
     Yields (DoubleEndedIter._gen it) [] /\
     DoubleEndedIter.len it = 1) /\
  (exists it,
     irange 10 (Some 1) (Some (-2)) = Returned it /\
     Yields (DoubleEndedIter._gen it) [10; 8; 6; 4; 2; 0] /\
     DoubleEndedIter.len it = 5).
Proof.
  split; eexists; (split; [reflexivity|]); split; try reflexivity.
  - exists 1%nat; reflexivity.
  - exists 7%nat; reflexivity.
Qed.

(** C6: with [step = 0] both [range] and [irange] throw
    ["Step cannot be 0"] as the outcome of the construction itself,
    whatever the other arguments: no iterator is returned, so no
    producer exists that could be invoked, loop, or throw later.  The
    same holds of the pair of constructors in src/iter/utils.ts. *)
Theorem zero_step_throws_at_construction (arg1 : Z) (arg2 : option Z) :
  range arg1 arg2 (Some 0) = Thrown "Step cannot be 0" /\
  irange arg1 arg2 (Some 0) = Thrown "Step cannot be 0" /\
  UtilsRange.range arg1 arg2 (Some 0) = Thrown "Step cannot be 0" /\
  UtilsRange.irange arg1 arg2 (Some 0) = Thrown "Step cannot be 0".
Proof.
  unfold range, irange, UtilsRange.range, UtilsRange.irange,
    getRangeParams, RangeTs.getRangeParams.
  destruct arg2; repeat split; reflexivity.
Qed.

(** C7: when [step > 0] and [start >= end], or [step < 0] and
    [start <= end], [range(start, end, step)] returns the canonical empty
    double-ended iterator [new DoubleEndedIter(rangeGen(0, 0),
    rangeGen(0, 0), 0)]: its forward producer yields nothing, its reverse
    producer yields nothing, its declared length is [0], and iterating
    it yields nothing. *)
Theorem range_unreachable_is_empty (start end_ step : Z) :
  (step > 0 /\ start >= end_) \/ (step < 0 /\ start <= end_) ->
  exists it,
    range start (Some end_) (Some step) = Returned it /\
    it = DoubleEndedIter.mk (rangeGen 0 0 1) (rangeGen 0 0 1) 0 /\
    Yields (DoubleEndedIter._gen it) [] /\
    Yields (DoubleEndedIter._rgen it) [] /\
    DoubleEndedIter.len it = 0 /\
    Yields (DoubleEndedIter.iterator it) [].
Proof.
  intros H.
  assert (U : unreachable start end_ step = true).
  { unfold unreachable.
    destruct H as [[Hs Hd]|[Hs Hd]];
      [ destruct (Z.gtb_spec step 0); [|lia];
        destruct (Z.geb_spec start end_); [reflexivity | lia]
      | destruct (Z.ltb_spec step 0); [|lia];
        destruct (Z.leb_spec start end_); [apply orb_true_r | lia] ]. }
  rewrite range_unreachable by (assumption || lia).
  eexists; split; [reflexivity|]. split; [reflexivity|].
  cbn [DoubleEndedIter._gen DoubleEndedIter._rgen].
  repeat split; try (apply rangeGen_empty; lia).
  exists 1%nat; reflexivity.
Qed.

Lemma range_unreachable_is_empty_witness :
  exists it,
    range 5 (Some 2) (Some 1) = Returned it /\
    it = DoubleEndedIter.mk (rangeGen 0 0 1) (rangeGen 0 0 1) 0 /\
    Yields (DoubleEndedIter._gen it) [] /\
    Yields (DoubleEndedIter._rgen it) [] /\
    DoubleEndedIter.len it = 0 /\
    Yields (DoubleEndedIter.iterator it) [].
Proof.
  apply (@range_unreachable_is_empty 5 2 1). left. lia.
Defined.

(** C9, at [irange(1, 10, 2)].  The constructor of src/iter/range.ts
    takes [last = 1 + floor(9 / 2) * 2 = 9]: forwards [1, 3, 5, 7, 9],
    backwards [9, 7, 5, 3, 1], length [5].  The one of src/iter/utils.ts
    is [range(1, 12, 2)]: forwards [1, 3, 5, 7, 9, 11], backwards
    [11, 9, 7, 5, 3, 1], length [ceil(11 / 2) = 6]; its [11] is past the
    inclusive bound [10].  The bare producer [irange] of src/range/range.ts
    yields that [11] as well. *)
Theorem irange_constructors_differ :
  (exists it,
     irange 1 (Some 10) (Some 2) = Returned it /\
     Yields (DoubleEndedIter._gen it) [1; 3; 5; 7; 9] /\
     Yields (DoubleEndedIter._rgen it) [9; 7; 5; 3; 1] /\
     DoubleEndedIter.len it = 5) /\
  (exists it,
     UtilsRange.irange 1 (Some 10) (Some 2) = Returned it /\
     Yields (DoubleEndedIter._gen it) [1; 3; 5; 7; 9; 11] /\
     Yields (DoubleEndedIter._rgen it) [11; 9; 7; 5; 3; 1] /\
     DoubleEndedIter.len it = 6) /\
  Yields (RangeTs.irange 1 (Some 10) (Some 2)) [1; 3; 5; 7; 9; 11].
Proof.
  split; [|split]; try (exists 10%nat; reflexivity);
    eexists; (split; [reflexivity|]);
    repeat split; try (exists 10%nat; reflexivity).
Qed.

End RangeClaims.

(** * The combinators on a producer that ends *)

Section OnFiniteSource.
Context {T : Type}.
Variable g : GenFn T.

(** What [skipWhile] yields: the items on which [fn] is false, wherever
    they stand. *)
Lemma skipWhile_drain (fn : Predicate T) :
  forall k c l,
    drain g k c = (l, Finished) ->
    drain (Utils.skipWhile fn g) k c
      = (List.filter (fun x => negb (fn x)) l, Finished).
Proof.
  induction k as [|k IH]; intros c l H; [discriminate|].
  rewrite drain_S in *. cbn [next Utils.skipWhile].
  destruct (next g c) as [|m|c'|v c'].
  - inversion H; reflexivity.
  - discriminate.
  - now apply IH.
  - destruct (drain g k c') as [l' st'] eqn:E.
    inversion H; subst. cbn [List.filter].
    destruct (fn v); cbn [negb]; rewrite (IH _ _ E); reflexivity.
Qed.

Lemma skipWhile_Yields (fn : Predicate T) (l : list T) :
  Yields g l ->
  Yields (Utils.skipWhile fn g) (List.filter (fun x => negb (fn x)) l).
Proof. intros [k H]. exists k. now apply skipWhile_drain. Qed.

(** What [take(n)] yields from a counter at [i]. *)
Lemma take_drain (n : Z) :
  forall k c i l,
    drain g k c = (l, Finished) -> 0 <= i <= n ->
    drain (Utils.take n g) k (i, c)
      = (firstn (Z.to_nat (n - i)) l, Finished).
Proof.
  induction k as [|k IH]; intros c i l H Hi; [discriminate|].
  rewrite drain_S in *. cbn [next Utils.take].
  destruct (next g c) as [|m|c'|v c'].
  - inversion H. now rewrite firstn_nil.
  - discriminate.
  - now apply IH.
  - destruct (drain g k c') as [l' st'] eqn:E.
    inversion H; subst.
    destruct (Z.eqb_spec i n) as [->|Hne].
    + now rewrite Z.sub_diag.
    + rewrite (IH _ (i + 1) _ E) by lia.
      replace (Z.to_nat (n - i)) with (S (Z.to_nat (n - (i + 1)))) by lia.
      reflexivity.
Qed.

Lemma take_Yields (n : Z) (l : list T) :
  0 <= n -> Yields g l -> Yields (Utils.take n g) (firstn (Z.to_nat n) l).
Proof.
  intros Hn [k H]. exists k.
  change (fresh (Utils.take n g)) with (0, fresh g).
  rewrite (@take_drain n k (fresh g) 0 l H) by lia. now rewrite Z.sub_0_r.
Qed.

(** The loop of [fold] over a producer that ends is [fold_left]. *)
Lemma fold_loop_drain {U} (fn : U -> T -> U) :
  forall k c l acc,
    drain g k c = (l, Finished) ->
    Utils.fold_loop fn g k c acc = Ret (fold_left fn l acc).
Proof.
  induction k as [|k IH]; intros c l acc H; [discriminate|].
  rewrite drain_S in H. cbn [Utils.fold_loop].
  destruct (next g c) as [|m|c'|v c'].
  - inversion H; reflexivity.
  - discriminate.
  - now apply IH.
  - destruct (drain g k c') as [l' st'] eqn:E.
    inversion H; subst. cbn [fold_left]. now apply IH.
Qed.

(** [iterator.next()] on a producer that ends. *)
Lemma first_item_drain :
  forall k c l,
    drain g k c = (l, Finished) ->
    match l with
    | [] => Utils.first_item g k c = Ret None
    | v :: r => exists c', Utils.first_item g k c = Ret (Some (v, c')) /\
                           drain g k c' = (r, Finished)
    end.
Proof.
  induction k as [|k IH]; intros c l H; [discriminate|].
  rewrite drain_S in H. cbn [Utils.first_item].
  destruct (next g c) as [|m|c'|v c'].
  - inversion H; reflexivity.
  - discriminate.
  - specialize (IH _ _ H). destruct l as [|v r]; [assumption|].
    destruct IH as (c'' & F & D). exists c''. split; [assumption|].
    apply drain_le with (k := k); [assumption | discriminate | lia].
  - destruct (drain g k c') as [l' st'] eqn:E.
    inversion H; subst. exists c'. split; [reflexivity|].
    apply drain_le with (k := k); [assumption | discriminate | lia].
Qed.

Lemma fold_Yields {U} (init : U) (fn : U -> T -> U) (l : list T) (k : nat) :
  drain g k (fresh g) = (l, Finished) ->
  forall fuel, (k <= fuel)%nat ->
    Utils.fold init fn g fuel = Ret (fold_left fn l init).
Proof.
  intros H fuel Hle. unfold Utils.fold. apply fold_loop_drain.
  apply drain_le with (k := k); [assumption | discriminate | assumption].
Qed.

Lemma reduce_Yields (fn : T -> T -> T) (l : list T) (k : nat) :
  drain g k (fresh g) = (l, Finished) ->
  forall fuel, (k <= fuel)%nat ->
    Utils.reduce fn g fuel =
      Ret (match l with [] => None | v :: r => Some (fold_left fn r v) end).
Proof.
  intros H fuel Hle. unfold Utils.reduce.
  assert (H' : drain g fuel (fresh g) = (l, Finished))
    by (apply drain_le with (k := k); [assumption | discriminate | assumption]).
  pose proof (@first_item_drain fuel (fresh g) l H') as F.
  destruct l as [|v r].
  - now rewrite F.
  - destruct F as (c' & -> & D). now rewrite (@fold_loop_drain T fn fuel c' r v D).
Qed.

End OnFiniteSource.

(** * Truncation at the declared length, and cycling *)

Lemma iterator_is_take {T} (it : ExactSizedIter.t T) :
  ExactSizedIter.iterator it
    = Utils.take (ExactSizedIter._len it) (ExactSizedIter._gen it).
Proof. reflexivity. Qed.

Lemma firstn_copies_cut {T} (j N : nat) (l : list T) :
  (j <= length l)%nat -> (j <= N)%nat ->
  firstn j (copies N l) = firstn j l.
Proof.
  intros Hj HN. destruct N as [|N].
  - assert (j = O) by lia. subst. reflexivity.
  - cbn [copies]. rewrite firstn_app.
    replace (j - length l)%nat with O by lia.
    cbn [firstn]. apply app_nil_r.
Qed.

Lemma firstn_copies_through {T} (j N : nat) (l : list T) :
  (length l <= j)%nat ->
  firstn j (copies (S N) l) = l ++ firstn (j - length l) (copies N l).
Proof.
  intros Hj. cbn [copies]. rewrite firstn_app, firstn_all2 by lia. reflexivity.
Qed.

Lemma copies_length {T} (N : nat) (l : list T) :
  length (copies N l) = (N * length l)%nat.
Proof.
  induction N as [|N IH]; [reflexivity|].
  cbn [copies]. rewrite length_app, IH. lia.
Qed.

Section Truncation.
Context {T : Type}.
Variable g : GenFn T.
Variable n : Z.

(** However long the source goes on, [take(n)] started with its counter
    at [i] yields at most [n - i] items. *)
Lemma take_at_most :
  forall k c i, 0 <= i <= n ->
    (length (fst (drain (Utils.take n g) k (i, c))) <= Z.to_nat (n - i))%nat.
Proof.
  induction k as [|k IH]; intros c i Hi; [cbn; lia|].
  rewrite drain_S. cbn [next Utils.take].
  destruct (next g c) as [|m|c'|v c']; try (cbn; lia).
  - now apply IH.
  - destruct (Z.eqb_spec i n) as [->|Hne]; [cbn; lia|].
    specialize (IH c' (i + 1) ltac:(lia)).
    destruct (drain (Utils.take n g) k (i + 1, c')) as [l' st'].
    cbn [fst length] in *. lia.
Qed.

Local Abbreviation G := (Utils.take n (Utils.cycle g)).

(** A pass over the source that stays below [n]: every item is yielded
    and the source is invoked again. *)
Lemma cycle_round_through :
  forall k c r i,
    drain g k c = (r, Finished) ->
    0 <= i -> i + Z.of_nat (length r) <= n ->
    exists k', forall m,
      drain G (k' + m) (i, c) =
        prepend r (drain G m (i + Z.of_nat (length r), fresh g)).
Proof.
  induction k as [|k IH]; intros c r i H Hi Hn; [discriminate|].
  rewrite drain_S in H.
  destruct (next g c) as [|m|c'|v c'] eqn:N.
  - inversion H; subst. exists 1%nat. intros m.
    change (1 + m)%nat with (S m). rewrite drain_S.
    cbn [next Utils.take Utils.cycle]. rewrite N.
    cbn [length Z.of_nat]. rewrite Z.add_0_r. symmetry. apply prepend_nil.
  - discriminate.
  - destruct (IH _ _ _ H Hi Hn) as [k' Hk']. exists (S k'). intros m.
    change (S k' + m)%nat with (S (k' + m)). rewrite drain_S.
    cbn [next Utils.take Utils.cycle]. rewrite N. apply Hk'.
  - destruct (drain g k c') as [r' st'] eqn:E.
    inversion H; subst. cbn [length] in Hn.
    destruct (IH _ _ (i + 1) E ltac:(lia) ltac:(lia)) as [k' Hk'].
    exists (S k'). intros m.
    change (S k' + m)%nat with (S (k' + m)). rewrite drain_S.
    cbn [next Utils.take Utils.cycle]. rewrite N.
    destruct (Z.eqb_spec i n); [lia|].
    rewrite Hk', let_prepend, prepend_app.
    replace (i + 1 + Z.of_nat (length r')) with (i + Z.of_nat (length (v :: r')))
      by (cbn [length]; lia).
    reflexivity.
Qed.

(** A pass over the source that reaches [n]: the iteration stops there. *)
Lemma cycle_round_cut :
  forall k c r i,
    drain g k c = (r, Finished) ->
    0 <= i <= n -> n < i + Z.of_nat (length r) ->
    drain G k (i, c) = (firstn (Z.to_nat (n - i)) r, Finished).
Proof.
  induction k as [|k IH]; intros c r i H Hi Hn; [discriminate|].
  rewrite drain_S in *.
  cbn [next Utils.take Utils.cycle].
  destruct (next g c) as [|m|c'|v c'].
  - inversion H; subst. cbn [length] in Hn. lia.
  - discriminate.
  - now apply IH.
  - destruct (drain g k c') as [r' st'] eqn:E.
    inversion H; subst. cbn [length] in Hn. cbv beta iota.
    destruct (Z.eqb_spec i n) as [->|Hne].
    + now rewrite Z.sub_diag.
    + pose proof (IH _ _ (i + 1) E ltac:(lia) ltac:(lia)) as IH'.
      rewrite let_prepend.
      etransitivity; [apply f_equal; exact IH' |].
      replace (Z.to_nat (n - i)) with (S (Z.to_nat (n - (i + 1)))) by lia.
      reflexivity.
Qed.

(** Iterating the cycled source up to [n]: the first [n - i] items of
    enough copies of what the source yields. *)
Lemma cycle_take_from (l : list T) :
  Yields g l -> l <> [] ->
  forall j i N,
    0 <= i <= n -> Z.to_nat (n - i) = j -> (j <= N)%nat ->
    exists k, drain G k (i, fresh g) = (firstn j (copies N l), Finished).
Proof.
  intros [k0 H0] Hl.
  assert (Hlen : (0 < length l)%nat) by (destruct l; [congruence | cbn; lia]).
  induction j as [j IH] using lt_wf_ind. intros i N Hi Hj HN.
  destruct (Z_lt_le_dec n (i + Z.of_nat (length l))) as [Hcut|Hthrough].
  - exists k0. rewrite (@cycle_round_cut k0 (fresh g) l i H0) by lia.
    rewrite Hj. now rewrite firstn_copies_cut by lia.
  - destruct (@cycle_round_through k0 (fresh g) l i H0) as [k' Hk']; [lia | lia |].
    destruct N as [|N]; [lia|].
    destruct (IH (j - length l)%nat ltac:(lia)
                 (i + Z.of_nat (length l)) N ltac:(lia) ltac:(lia) ltac:(lia))
      as [k2 Hk2].
    exists (k' + k2)%nat. rewrite Hk', Hk2. unfold prepend; cbn [fst snd].
    now rewrite firstn_copies_through by lia.
Qed.

End Truncation.

(** * The combinators: what the iterators guarantee *)

Module IterClaims.

(** C3, at the array [[1, 5, 2, 7]] with [fn = x => x < 3]: [fn] is
    false for [5], so everything from [5] on is to be yielded, [2]
    included; the loop of [skipWhile] tests [fn] on every item and
    [continue]s on [2] as well, so the producer, and the iterator the
    method returns, yield [5, 7] where the specification has [5, 2, 7]. *)
Theorem skipWhile_drops_later_items :
  Yields (Utils.skipWhile (fun x => x <? 3) (gen [1; 5; 2; 7])) [5; 7] /\
  Yields (Iter.iterator
            (Iter.skipWhile (fun x => x <? 3) (Iter.mk (gen [1; 5; 2; 7]))))
         [5; 7] /\
  drop_leading (fun x => x <? 3) [1; 5; 2; 7] = [5; 2; 7].
Proof.
  repeat split; exists 5%nat; reflexivity.
Qed.

(** The declared length after [skip(n)] is the difference, which is
    [max(0, length - n)] exactly when [n] is not greater than the
    length. *)
Lemma skip_len {T} (it : ExactSizedIter.t T) (n : Z) :
  ExactSizedIter.len (ExactSizedIter.skip n it) = ExactSizedIter.len it - n /\
  (ExactSizedIter.len (ExactSizedIter.skip n it)
     = Z.max 0 (ExactSizedIter.len it - n) <-> n <= ExactSizedIter.len it).
Proof.
  unfold ExactSizedIter.len, ExactSizedIter.skip; cbn. lia.
Qed.

Lemma skip_len_double_ended {T} (it : DoubleEndedIter.t T) (n : Z) :
  DoubleEndedIter.len (DoubleEndedIter.skip n it) = DoubleEndedIter.len it - n /\
  (DoubleEndedIter.len (DoubleEndedIter.skip n it)
     = Z.max 0 (DoubleEndedIter.len it - n) <-> n <= DoubleEndedIter.len it).
Proof.
  unfold DoubleEndedIter.len, ExactSizedIter.len, DoubleEndedIter.skip; cbn. lia.
Qed.

(** C4, at [range(2).skip(5)] and at an exact-sized iterator of
    declared length [2] over [[1, 2]]: both tiers compute
    [this._len - n = 2 - 5], so [len()] is [-3], where the specification has
    [max(0, 2 - 5) = 0]. *)
Theorem skip_len_negative :
  (exists it,
     IterRange.range 2 None None = Returned it /\
     DoubleEndedIter.len it = 2 /\
     DoubleEndedIter.len (DoubleEndedIter.skip 5 it) = -3) /\
  ExactSizedIter.len
    (ExactSizedIter.skip 5 (ExactSizedIter.mk (gen [1; 2]) 2)) = -3 /\
  Z.max 0 (2 - 5) = 0.
Proof.
  split; [eexists; split; [reflexivity|]; split; reflexivity|].
  split; reflexivity.
Qed.




(** C8: on a source that ends without yielding anything, given enough
    fuel to reach its end, [fold(init, fn)] returns [init] itself and
    [reduce(fn)] returns [undefined]: a value, not a thrown error, and
    not the result carrying any element. *)
Theorem fold_reduce_on_empty {T U} (g : GenFn T) (init : U)
    (fn : U -> T -> U) (rfn : T -> T -> T) :
  Yields g [] ->
  exists k, forall fuel, (k <= fuel)%nat ->
    Utils.fold init fn g fuel = Ret init /\
    Utils.reduce rfn g fuel = Ret None /\
    (forall v, Utils.reduce rfn g fuel <> Ret (Some v)) /\
    (forall m, Utils.reduce rfn g fuel <> Raise m).
Proof.
  intros [k H]. exists k. intros fuel Hle.
  pose proof (@fold_Yields T g U init fn [] k H fuel Hle) as F.
  pose proof (@reduce_Yields T g rfn [] k H fuel Hle) as R.
  cbn [fold_left] in F. rewrite F, R.
  repeat split; intros; discriminate.
Qed.

Lemma fold_reduce_on_empty_witness :
  Yields (gen (@nil Z)) [] /\
  exists k, forall fuel, (k <= fuel)%nat ->
    Utils.fold 7 Z.add (gen []) fuel = Ret 7 /\
    Utils.reduce Z.add (gen []) fuel = Ret None /\
    (forall v, Utils.reduce Z.add (gen []) fuel <> Ret (Some v)) /\
    (forall m, Utils.reduce Z.add (gen []) fuel <> Raise m).
Proof.
  split; [apply gen_Yields|].
  apply (@fold_reduce_on_empty Z Z (gen []) 7 Z.add Z.add).
  apply gen_Yields.
Defined.

(** On a source that yields something, [reduce] returns a value that
    carries an element, so [undefined] comes from the empty source only. *)
Lemma reduce_on_nonempty {T} (g : GenFn T) (rfn : T -> T -> T) v r :
  Yields g (v :: r) ->
  exists k, forall fuel, (k <= fuel)%nat ->
    Utils.reduce rfn g fuel = Ret (Some (fold_left rfn r v)).
Proof.
  intros [k H]. exists k. intros fuel Hle.
  apply (@reduce_Yields T g rfn (v :: r) k H fuel Hle).
Qed.

End IterClaims.

(** * Iterating a sized iterator *)

Module SizedClaims.

Section ExactSized.
Context {T : Type}.
Variable it : ExactSizedIter.t T.
Hypothesis len_nonneg : 0 <= ExactSizedIter.len it.

Lemma iterator_at_most (fuel : nat) :
  Z.of_nat (length (fst (drain (ExactSizedIter.iterator it) fuel
                           (fresh (ExactSizedIter.iterator it)))))
    <= ExactSizedIter.len it.
Proof.
  pose proof (@take_at_most T (ExactSizedIter._gen it) (ExactSizedIter._len it)
                fuel (fresh (ExactSizedIter._gen it)) 0
                ltac:(unfold ExactSizedIter.len in len_nonneg; lia)) as H.
  rewrite iterator_is_take.
  change (fresh (Utils.take _ _)) with (0, fresh (ExactSizedIter._gen it)).
  unfold ExactSizedIter.len in *. lia.
Qed.

Lemma iterator_of_cycle (l : list T) :
  Yields (ExactSizedIter._gen it) l -> l <> [] ->
  Yields (ExactSizedIter.iterator (ExactSizedIter.cycle it))
         (firstn (Z.to_nat (ExactSizedIter.len it))
                 (copies (Z.to_nat (ExactSizedIter.len it)) l)).
Proof.
  intros Hl Hne. unfold ExactSizedIter.len in *.
  destruct (@cycle_take_from T (ExactSizedIter._gen it) (ExactSizedIter._len it)
              l Hl Hne (Z.to_nat (ExactSizedIter._len it)) 0
              (Z.to_nat (ExactSizedIter._len it))
              ltac:(lia) ltac:(f_equal; lia) ltac:(lia)) as [k Hk].
  exists k. exact Hk.
Qed.

End ExactSized.

Lemma firstn_copies_length {T} (n : nat) (l : list T) :
  l <> [] -> length (firstn n (copies n l)) = n.
Proof.
  intros Hne. rewrite length_firstn, copies_length.
  destruct l; [congruence | cbn [length]; nia].
Qed.

(** C10: an exact-sized or double-ended iterator whose declared length
    is not negative yields, when iterated, at most that many items,
    however far its producer would go.  In particular, if its producer
    yields the non-empty [l], iterating the result of [cycle()] ends:
    it yields the first [len] items of [l] repeated, which are [len]
    items, and they are [l] itself when [len] is the length of [l]. *)
Theorem iteration_stops_at_len {T} (it : ExactSizedIter.t T)
    (dit : DoubleEndedIter.t T) :
  0 <= ExactSizedIter.len it -> 0 <= DoubleEndedIter.len dit ->
  (forall fuel,
      Z.of_nat (length (fst (drain (ExactSizedIter.iterator it) fuel
                               (fresh (ExactSizedIter.iterator it)))))
        <= ExactSizedIter.len it) /\
  (forall fuel,
      Z.of_nat (length (fst (drain (DoubleEndedIter.iterator dit) fuel
                               (fresh (DoubleEndedIter.iterator dit)))))
        <= DoubleEndedIter.len dit) /\
  (forall l, Yields (ExactSizedIter._gen it) l -> l <> [] ->
     Yields (ExactSizedIter.iterator (ExactSizedIter.cycle it))
            (firstn (Z.to_nat (ExactSizedIter.len it))
                    (copies (Z.to_nat (ExactSizedIter.len it)) l)) /\
     Z.of_nat (length (firstn (Z.to_nat (ExactSizedIter.len it))
                         (copies (Z.to_nat (ExactSizedIter.len it)) l)))
       = ExactSizedIter.len it /\
     (ExactSizedIter.len it = Z.of_nat (length l) ->
      Yields (ExactSizedIter.iterator (ExactSizedIter.cycle it)) l)) /\
  (forall l, Yields (DoubleEndedIter._gen dit) l -> l <> [] ->
     Yields (DoubleEndedIter.iterator (DoubleEndedIter.cycle dit))
            (firstn (Z.to_nat (DoubleEndedIter.len dit))
                    (copies (Z.to_nat (DoubleEndedIter.len dit)) l)) /\
     Z.of_nat (length (firstn (Z.to_nat (DoubleEndedIter.len dit))
                         (copies (Z.to_nat (DoubleEndedIter.len dit)) l)))
       = DoubleEndedIter.len dit /\
     (DoubleEndedIter.len dit = Z.of_nat (length l) ->
      Yields (DoubleEndedIter.iterator (DoubleEndedIter.cycle dit)) l)).
Proof.
  intros Hit Hdit.
  assert (Hsup : 0 <= ExactSizedIter.len (DoubleEndedIter.super dit)) by exact Hdit.
  assert (Own : forall (e : ExactSizedIter.t T) l,
             0 <= ExactSizedIter.len e ->
             Yields (ExactSizedIter._gen e) l -> l <> [] ->
             ExactSizedIter.len e = Z.of_nat (length l) ->
             Yields (ExactSizedIter.iterator (ExactSizedIter.cycle e)) l).
  { intros e l He Hl Hne Hlen.
    pose proof (@iterator_of_cycle T e He l Hl Hne) as Y.
    rewrite Hlen, Nat2Z.id in Y.
    rewrite firstn_copies_cut in Y by lia.
    now rewrite firstn_all in Y. }
  split; [intros fuel; exact (@iterator_at_most T it Hit fuel)|].
  split; [intros fuel; exact (@iterator_at_most T _ Hsup fuel)|].
  split; intros l Hl Hne.
  - split; [exact (@iterator_of_cycle T it Hit l Hl Hne)|].
    split; [rewrite firstn_copies_length by assumption; lia|].
    now apply Own.
  - split; [exact (@iterator_of_cycle T _ Hsup l Hl Hne)|].
    split; [rewrite firstn_copies_length by assumption; lia|].
    intros Hlen. exact (Own (DoubleEndedIter.super dit) l Hsup Hl Hne Hlen).
Qed.

Lemma iteration_stops_at_len_witness :
  0 <= ExactSizedIter.len (ExactSizedIter.mk (gen [1; 2; 3]) 3) /\
  0 <= DoubleEndedIter.len
         (DoubleEndedIter.mk (gen [1; 2; 3]) (gen [3; 2; 1]) 3) /\
  Yields (ExactSizedIter.iterator
            (ExactSizedIter.cycle (ExactSizedIter.mk (gen [1; 2; 3]) 3)))
         [1; 2; 3] /\
  Yields (DoubleEndedIter.iterator
            (DoubleEndedIter.cycle
               (DoubleEndedIter.mk (gen [1; 2; 3]) (gen [3; 2; 1]) 3)))
         [1; 2; 3].
Proof.
  assert (H1 : 0 <= ExactSizedIter.len (ExactSizedIter.mk (gen [1; 2; 3]) 3))
    by (cbn; lia).
  assert (H2 : 0 <= DoubleEndedIter.len
                      (DoubleEndedIter.mk (gen [1; 2; 3]) (gen [3; 2; 1]) 3))
    by (cbn; lia).
  destruct (@iteration_stops_at_len Z _ _ H1 H2) as (_ & _ & E & D).
  split; [exact H1|]. split; [exact H2|]. split.
  - exact (proj2 (proj2 (E [1; 2; 3] (gen_Yields _) ltac:(discriminate)))
             eq_refl).
  - exact (proj2 (proj2 (D [1; 2; 3] (gen_Yields _) ltac:(discriminate)))
             eq_refl).
Defined.

End SizedClaims.

(** * The combinators, step for step *)

(** Several combinators move in step with their source: one transition
    of the source is one transition of the result, so the two stop the
    same way after the same number of transitions. *)

Section InStep.
Context {T : Type}.
Variable g : GenFn T.

Lemma map_in_step {U} (fn : T -> U) :
  forall k c,
    drain (Utils.map fn g) k c
      = (List.map fn (fst (drain g k c)), snd (drain g k c)).
Proof.
  induction k as [|k IH]; intros c; [reflexivity|].
  rewrite !drain_S. cbn [next Utils.map].
  destruct (next g c) as [|m|c'|v c']; try reflexivity.
  - apply IH.
  - rewrite IH. now destruct (drain g k c').
Qed.

Lemma filter_in_step (fn : T -> bool) :
  forall k c,
    drain (Utils.filter fn g) k c
      = (List.filter fn (fst (drain g k c)), snd (drain g k c)).
Proof.
  induction k as [|k IH]; intros c; [reflexivity|].
  rewrite !drain_S. cbn [next Utils.filter].
  destruct (next g c) as [|m|c'|v c']; try reflexivity.
  - apply IH.
  - destruct (drain g k c') as [l st] eqn:E. cbn [fst snd List.filter].
    specialize (IH c'). rewrite E in IH. cbn [fst snd] in IH.
    destruct (fn v); rewrite IH; reflexivity.
Qed.

Lemma skipWhile_in_step (fn : Predicate T) :
  forall k c,
    drain (Utils.skipWhile fn g) k c
      = (List.filter (fun x => negb (fn x)) (fst (drain g k c)),
         snd (drain g k c)).
Proof.
  induction k as [|k IH]; intros c; [reflexivity|].
  rewrite !drain_S. cbn [next Utils.skipWhile].
  destruct (next g c) as [|m|c'|v c']; try reflexivity.
  - apply IH.
  - destruct (drain g k c') as [l st] eqn:E. cbn [fst snd List.filter].
    specialize (IH c'). rewrite E in IH. cbn [fst snd] in IH.
    destruct (fn v); cbn [negb]; rewrite IH; reflexivity.
Qed.

Lemma skip_in_step (n : Z) :
  forall k c sk,
    drain (Utils.skip n g) k (sk, c)
      = (skipn (Z.to_nat sk) (fst (drain g k c)), snd (drain g k c)).
Proof.
  induction k as [|k IH]; intros c sk; [now rewrite skipn_nil|].
  rewrite !drain_S. cbn [next Utils.skip].
  destruct (next g c) as [|m|c'|v c']; try (cbn [fst snd]; now rewrite skipn_nil).
  - apply IH.
  - destruct (drain g k c') as [l st] eqn:E. cbn [fst snd].
    specialize (IH c' (sk - 1)). rewrite E in IH. cbn [fst snd] in IH.
    destruct (Z.leb_spec sk 0).
    + rewrite IH.
      replace (Z.to_nat sk) with O by lia.
      replace (Z.to_nat (sk - 1)) with O by lia. reflexivity.
    + rewrite IH.
      replace (Z.to_nat sk) with (S (Z.to_nat (sk - 1))) by lia. reflexivity.
Qed.

Lemma enumerate_in_step :
  forall k c i,
    drain (Utils.enumerate g) k (i, c)
      = (combine (zseq i 1 (length (fst (drain g k c)))) (fst (drain g k c)),
         snd (drain g k c)).
Proof.
  induction k as [|k IH]; intros c i; [reflexivity|].
  rewrite !drain_S. cbn [next Utils.enumerate].
  destruct (next g c) as [|m|c'|v c']; try reflexivity.
  - apply IH.
  - rewrite IH. now destruct (drain g k c').
Qed.

Lemma each_in_step :
  forall k c, drain (Mod.each g) k c = drain g k c.
Proof.
  induction k as [|k IH]; intros c; [reflexivity|].
  rewrite !drain_S. cbn [next Mod.each].
  destruct (next g c) as [|m|c'|v c']; try reflexivity.
  - apply IH.
  - now rewrite IH.
Qed.

(** A counter already past [n] never meets it: [take(n)] lets
    everything through. *)
Lemma take_past_in_step (n : Z) :
  forall k c i, n < i -> drain (Utils.take n g) k (i, c) = drain g k c.
Proof.
  induction k as [|k IH]; intros c i Hi; [reflexivity|].
  rewrite !drain_S. cbn [next Utils.take].
  destruct (next g c) as [|m|c'|v c']; try reflexivity.
  - now apply IH.
  - destruct (Z.eqb_spec i n); [lia|]. now rewrite IH by lia.
Qed.

(** [takeWhile] stops at the first item on which [fn] is false, or where
    the source stops if there is no such item among the [k] first
    transitions. *)
Lemma takeWhile_drain (fn : Predicate T) :
  forall k c,
    drain (Utils.takeWhile fn g) k c
      = (take_leading fn (fst (drain g k c)),
         if forallb fn (fst (drain g k c)) then snd (drain g k c)
         else Finished).
Proof.
  induction k as [|k IH]; intros c; [reflexivity|].
  rewrite !drain_S. cbn [next Utils.takeWhile].
  destruct (next g c) as [|m|c'|v c']; try reflexivity.
  - apply IH.
  - destruct (drain g k c') as [l st] eqn:E.
    cbn [fst snd take_leading forallb].
    specialize (IH c'). rewrite E in IH. cbn [fst snd] in IH.
    destruct (fn v); cbn [negb andb]; [rewrite IH|]; reflexivity.
Qed.

(** [cycle] ends only by throwing. *)
Lemma cycle_never_finishes :
  forall k c, snd (drain (Utils.cycle g) k c) <> Finished.
Proof.
  induction k as [|k IH]; intros c; [discriminate|].
  rewrite drain_S. cbn [next Utils.cycle].
  destruct (next g c) as [|m|c'|v c']; try apply IH; try discriminate.
  specialize (IH c'). now destruct (drain (Utils.cycle g) k c').
Qed.

(** Over a source that yields nothing, [cycle] goes round for ever
    without yielding. *)
Lemma cycle_of_nothing :
  Yields g [] ->
  forall k, drain (Utils.cycle g) k (fresh g) = ([], Pending).
Proof.
  intros [k0 H0].
  assert (Round : forall j c, drain g j c = ([], Finished) ->
            forall k, (forall k', (k' < k)%nat ->
                          drain (Utils.cycle g) k' (fresh g) = ([], Pending)) ->
                      drain (Utils.cycle g) k c = ([], Pending)).
  { induction j as [|j IHj]; intros c Hc k Hk; [discriminate|].
    destruct k as [|k]; [reflexivity|].
    rewrite drain_S in *. cbn [next Utils.cycle].
    destruct (next g c) as [|m|c'|v c'].
    - apply Hk. lia.
    - discriminate.
    - apply (IHj c' Hc). intros k' Hk'. apply Hk. lia.
    - destruct (drain g j c'); discriminate. }
  induction k as [k IH] using lt_wf_ind.
  apply (Round k0 (fresh g) H0 k IH).
Qed.

End InStep.

(** [repeat(item)] goes on yielding [item]. *)
Lemma repeat_drain {T} (item : T) :
  forall k c, drain (Utils.repeat item) k c = (List.repeat item k, Pending).
Proof.
  induction k as [|k IH]; intros c; [reflexivity|].
  rewrite drain_S. cbn [next Utils.repeat]. now rewrite IH.
Qed.

Lemma firstn_repeat_le {T} (x : T) (n m : nat) :
  (n <= m)%nat -> firstn n (List.repeat x m) = List.repeat x n.
Proof.
  revert m; induction n as [|n IH]; intros m H; [reflexivity|].
  destruct m as [|m]; [lia|]. cbn. f_equal. apply IH. lia.
Qed.

Section Cut.
Context {T : Type}.
Variable g : GenFn T.

(** [take(n)] on any source: in step with it for [n] items, then over as
    soon as the source yields one more. *)
Lemma take_drain_any (n : Z) :
  forall k c i, 0 <= i <= n ->
    drain (Utils.take n g) k (i, c)
      = (firstn (Z.to_nat (n - i)) (fst (drain g k c)),
         if (Z.to_nat (n - i) <? length (fst (drain g k c)))%nat
         then Finished else snd (drain g k c)).
Proof.
  induction k as [|k IH]; intros c i Hi; [now rewrite firstn_nil|].
  rewrite !drain_S. cbn [next Utils.take].
  destruct (next g c) as [|m|c'|v c']; try (cbn [fst snd]; now rewrite firstn_nil).
  - now apply IH.
  - destruct (drain g k c') as [l st] eqn:E. cbn [fst snd].
    destruct (Z.eqb_spec i n) as [->|Hne].
    + now rewrite Z.sub_diag.
    + specialize (IH c' (i + 1) ltac:(lia)). rewrite E in IH. cbn [fst snd] in IH.
      rewrite IH.
      replace (Z.to_nat (n - i)) with (S (Z.to_nat (n - (i + 1)))) by lia.
      reflexivity.
Qed.

Lemma fold_loop_any {U} (fn : U -> T -> U) :
  forall k c acc,
    Utils.fold_loop fn g k c acc
      = settle (snd (drain g k c)) (fold_left fn (fst (drain g k c)) acc).
Proof.
  induction k as [|k IH]; intros c acc; [reflexivity|].
  rewrite drain_S. cbn [Utils.fold_loop].
  destruct (next g c) as [|m|c'|v c']; try reflexivity.
  - apply IH.
  - rewrite IH. now destruct (drain g k c').
Qed.

Lemma forEach_loop_any {W} (fn : T -> W -> W) :
  forall k c w,
    Utils.forEach_loop fn g k c w
      = settle (snd (drain g k c))
          (fold_left (fun w x => fn x w) (fst (drain g k c)) w).
Proof.
  induction k as [|k IH]; intros c w; [reflexivity|].
  rewrite drain_S. cbn [Utils.forEach_loop].
  destruct (next g c) as [|m|c'|v c']; try reflexivity.
  - apply IH.
  - rewrite IH. now destruct (drain g k c').
Qed.

Lemma any_loop_any (fn : Predicate T) :
  forall k c,
    Utils.any_loop fn g k c
      = if existsb fn (fst (drain g k c)) then Ret true
        else settle (snd (drain g k c)) false.
Proof.
  induction k as [|k IH]; intros c; [reflexivity|].
  rewrite drain_S. cbn [Utils.any_loop].
  destruct (next g c) as [|m|c'|v c']; try reflexivity.
  - apply IH.
  - rewrite IH. destruct (drain g k c') as [l st]. cbn [fst snd existsb].
    now destruct (fn v).
Qed.

Lemma all_loop_any (fn : Predicate T) :
  forall k c,
    Utils.all_loop fn g k c
      = if forallb fn (fst (drain g k c))
        then settle (snd (drain g k c)) true
        else Ret false.
Proof.
  induction k as [|k IH]; intros c; [reflexivity|].
  rewrite drain_S. cbn [Utils.all_loop].
  destruct (next g c) as [|m|c'|v c']; try reflexivity.
  - apply IH.
  - rewrite IH. destruct (drain g k c') as [l st]. cbn [fst snd forallb].
    now destruct (fn v).
Qed.

Lemma find_loop_any (fn : Predicate T) :
  forall k c,
    Utils.find_loop fn g k c
      = match List.find fn (fst (drain g k c)) with
        | Some v => Ret (Some v)
        | None => settle (snd (drain g k c)) None
        end.
Proof.
  induction k as [|k IH]; intros c; [reflexivity|].
  rewrite drain_S. cbn [Utils.find_loop].
  destruct (next g c) as [|m|c'|v c']; try reflexivity.
  - apply IH.
  - rewrite IH. destruct (drain g k c') as [l st]. cbn [fst snd List.find].
    now destruct (fn v).
Qed.

End Cut.

Lemma fold_left_count {T} (l : list T) (acc : Z) :
  fold_left (fun a (_ : T) => a + 1) l acc = acc + Z.of_nat (length l).
Proof.
  revert acc; induction l as [|x r IH]; intros acc; cbn [fold_left length].
  - lia.
  - rewrite IH. lia.
Qed.

Lemma count_any {T} (g : GenFn T) (fuel : nat) :
  Utils.count g fuel
    = settle (snd (drain g fuel (fresh g)))
        (Z.of_nat (length (fst (drain g fuel (fresh g))))).
Proof.
  unfold Utils.count, Utils.fold. rewrite fold_loop_any, fold_left_count.
  reflexivity.
Qed.

(** * The combinators: further properties *)

Module CombinatorFacts.

(** [map(fn)] applies [fn] to each item and changes nothing else: after
    any number of transitions from any cursor the result has yielded the
    images of what the source has yielded, as many of them, and stands
    where the source stands (ended, thrown, or still going). *)
Theorem map_drain {T U} (g : GenFn T) (fn : T -> U) (k : nat) (c : cursor g) :
  drain (Utils.map fn g) k c
    = (List.map fn (fst (drain g k c)), snd (drain g k c)) /\
  length (fst (drain (Utils.map fn g) k c)) = length (fst (drain g k c)).
Proof.
  rewrite map_in_step. split; [reflexivity|]. cbn [fst]. apply length_map.
Qed.

(** [filter(fn)] keeps, in order, exactly the items on which [fn] is
    true, never more items than the source yields, and stops as the
    source stops. *)
Theorem filter_drain {T} (g : GenFn T) (fn : T -> bool) (k : nat)
    (c : cursor g) :
  drain (Utils.filter fn g) k c
    = (List.filter fn (fst (drain g k c)), snd (drain g k c)) /\
  (length (fst (drain (Utils.filter fn g) k c))
     <= length (fst (drain g k c)))%nat.
Proof.
  rewrite filter_in_step. split; [reflexivity|]. cbn [fst]. apply filter_length_le.
Qed.

(** [takeWhile(fn)] yields the maximal leading run of items on which
    [fn] is true.  It ends at the first item on which [fn] is false,
    whatever the source would do after it, and otherwise stops as the
    source stops. *)
Theorem takeWhile_stops_at_first_false {T} (g : GenFn T) (fn : Predicate T)
    (k : nat) (c : cursor g) :
  drain (Utils.takeWhile fn g) k c
    = (take_leading fn (fst (drain g k c)),
       if forallb fn (fst (drain g k c)) then snd (drain g k c)
       else Finished).
Proof. apply takeWhile_drain. Qed.

(** [skip(n)] drops the first [n] items the source yields and lets the
    rest through; with [n <= 0] it drops nothing, and with [n] beyond
    what the source yields it yields nothing, without an error of its
    own. *)
Theorem skip_drain {T} (g : GenFn T) (n : Z) (k : nat) :
  drain (Utils.skip n g) k (fresh (Utils.skip n g))
    = (skipn (Z.to_nat n) (fst (drain g k (fresh g))),
       snd (drain g k (fresh g))).
Proof. apply skip_in_step. Qed.

(** [take(n)] with [n >= 0] yields the first [n] items of the source and
    ends as soon as the source offers one more; if the source stops
    within [n] items, so does the result, the same way.  With [n < 0]
    the counter never meets [n] and the result is the source. *)
Theorem take_drain_all {T} (g : GenFn T) (n : Z) (k : nat) :
  drain (Utils.take n g) k (fresh (Utils.take n g))
    = if n <? 0 then drain g k (fresh g)
      else (firstn (Z.to_nat n) (fst (drain g k (fresh g))),
            if (Z.to_nat n <? length (fst (drain g k (fresh g))))%nat
            then Finished else snd (drain g k (fresh g))).
Proof.
  change (fresh (Utils.take n g)) with (0, fresh g).
  destruct (Z.ltb_spec n 0).
  - now apply take_past_in_step.
  - rewrite take_drain_any by lia. now rewrite Z.sub_0_r.
Qed.

(** [enumerate()] pairs the items with [0, 1, 2, ...] in the order the
    source yields them. *)
Theorem enumerate_drain {T} (g : GenFn T) (k : nat) :
  drain (Utils.enumerate g) k (fresh (Utils.enumerate g))
    = (combine (zseq 0 1 (length (fst (drain g k (fresh g)))))
               (fst (drain g k (fresh g))),
       snd (drain g k (fresh g))).
Proof. apply enumerate_in_step. Qed.

(** [cycle] never ends of its own: whatever the source and however many
    transitions are made, the traversal has not finished. *)
Theorem cycle_never_ends {T} (g : GenFn T) (k : nat) (c : cursor g) :
  snd (drain (Utils.cycle g) k c) <> Finished.
Proof. apply cycle_never_finishes. Qed.

(** Over a source that ends without yielding, [cycle] yields nothing and
    runs for ever: it is still going, with nothing yielded, after any
    number of transitions. *)
Theorem cycle_of_empty_source {T} (g : GenFn T) :
  Yields g [] ->
  (forall k, drain (Utils.cycle g) k (fresh (Utils.cycle g)) = ([], Pending)) /\
  NeverEnds (Utils.cycle g).
Proof.
  intros H.
  assert (E : forall k, drain (Utils.cycle g) k (fresh g) = ([], Pending))
    by now apply cycle_of_nothing.
  split; [exact E|]. intros k.
  change (fresh (Utils.cycle g)) with (fresh g). now rewrite E.
Qed.

Lemma cycle_of_empty_source_witness :
  Yields (gen (@nil Z)) [] /\
  (forall k, drain (Utils.cycle (gen (@nil Z))) k
               (fresh (Utils.cycle (gen (@nil Z)))) = ([], Pending)).
Proof.
  split; [apply gen_Yields|].
  exact (proj1 (@cycle_of_empty_source Z (gen []) (gen_Yields []))).
Defined.

(** [cycle] bounded by [take(k)]: over a source that yields the
    non-empty [l], the first [k] items of [l] repeated, and then the
    end. *)
Theorem take_of_cycle {T} (g : GenFn T) (l : list T) (k : Z) :
  Yields g l -> l <> [] -> 0 <= k ->
  Yields (Utils.take k (Utils.cycle g))
         (firstn (Z.to_nat k) (copies (Z.to_nat k) l)).
Proof.
  intros Hl Hne Hk.
  destruct (@cycle_take_from T g k l Hl Hne (Z.to_nat k) 0 (Z.to_nat k)
              ltac:(lia) ltac:(f_equal; lia) ltac:(lia)) as [fuel Hf].
  exists fuel. exact Hf.
Qed.

Lemma take_of_cycle_witness :
  Yields (gen [1; 2; 3]) [1; 2; 3] /\ [1; 2; 3] <> [] /\ 0 <= 7 /\
  Yields (Utils.take 7 (Utils.cycle (gen [1; 2; 3]))) [1; 2; 3; 1; 2; 3; 1].
Proof.
  split; [apply gen_Yields|]. split; [discriminate|]. split; [lia|].
  exact (@take_of_cycle Z (gen [1; 2; 3]) [1; 2; 3] 7
           (gen_Yields _) ltac:(discriminate) ltac:(lia)).
Defined.

(** [repeat(item)] never ends and yields nothing but [item]; bounded by
    [take(n)] it yields [item] exactly [n] times. *)
Theorem take_of_repeat {T} (item : T) (n : Z) :
  0 <= n ->
  NeverEnds (Utils.repeat item) /\
  (forall k, fst (drain (Utils.repeat item) k (fresh (Utils.repeat item)))
             = List.repeat item k) /\
  Yields (Utils.take n (Utils.repeat item)) (List.repeat item (Z.to_nat n)).
Proof.
  intros Hn. split; [|split].
  - intros k. now rewrite repeat_drain.
  - intros k. now rewrite repeat_drain.
  - exists (S (Z.to_nat n)).
    change (fresh (Utils.take n (Utils.repeat item)))
      with (0, fresh (Utils.repeat item)).
    rewrite take_drain_any, repeat_drain by lia. cbn [fst snd].
    rewrite Z.sub_0_r, repeat_length, firstn_repeat_le by lia.
    destruct (Nat.ltb_spec (Z.to_nat n) (S (Z.to_nat n))); [reflexivity | lia].
Qed.

Lemma take_of_repeat_witness :
  0 <= 3 /\ Yields (Utils.take 3 (Utils.repeat 9)) [9; 9; 9].
Proof.
  split; [lia|].
  exact (proj2 (proj2 (@take_of_repeat Z 9 3 ltac:(lia)))).
Defined.

(** [fold(init, fn)] is the left fold of [fn] over what the source
    yields, returned when the source ends; if the source throws, or is
    still going when the fuel is out, so is the fold. *)
Theorem fold_is_fold_left {T U} (g : GenFn T) (init : U) (fn : U -> T -> U)
    (fuel : nat) :
  Utils.fold init fn g fuel
    = settle (snd (drain g fuel (fresh g)))
        (fold_left fn (fst (drain g fuel (fresh g))) init) /\
  Iter.fold init fn (Iter.mk g) fuel = Utils.fold init fn g fuel.
Proof. split; [apply fold_loop_any | reflexivity]. Qed.

(** [forEach(fn)] calls [fn] once on each item, in the order the source
    yields them, and returns when the source ends. *)
Theorem forEach_visits_in_order {T W} (g : GenFn T) (fn : T -> W -> W)
    (fuel : nat) (w : W) :
  Utils.forEach fn g fuel w
    = settle (snd (drain g fuel (fresh g)))
        (fold_left (fun w x => fn x w) (fst (drain g fuel (fresh g))) w).
Proof. apply forEach_loop_any. Qed.

(** [count()] is the number of items the source yields, returned when
    the source ends. *)
Theorem count_is_length {T} (g : GenFn T) (fuel : nat) :
  Utils.count g fuel
    = settle (snd (drain g fuel (fresh g)))
        (Z.of_nat (length (fst (drain g fuel (fresh g))))).
Proof. apply count_any. Qed.

(** Over a source that yields [l] and with [n >= 0], given enough fuel,
    [take(n)] then [count()] is [min(n, |l|)] and [skip(n)] then
    [count()] is [max(0, |l| - n)]. *)
Theorem count_after_take_and_skip {T} (g : GenFn T) (l : list T) (n : Z) :
  0 <= n -> Yields g l ->
  exists k, forall fuel, (k <= fuel)%nat ->
    Utils.count (Utils.take n g) fuel = Ret (Z.min n (Z.of_nat (length l))) /\
    Utils.count (Utils.skip n g) fuel
      = Ret (Z.max 0 (Z.of_nat (length l) - n)).
Proof.
  intros Hn [k H]. exists k. intros fuel Hle.
  assert (H' : drain g fuel (fresh g) = (l, Finished))
    by (apply drain_le with (k := k); [assumption | discriminate | assumption]).
  rewrite !count_any.
  change (fresh (Utils.take n g)) with (0, fresh g).
  change (fresh (Utils.skip n g)) with (n, fresh g).
  rewrite take_drain_any, skip_in_step, H' by lia. cbn [fst snd].
  rewrite Z.sub_0_r, length_firstn, length_skipn.
  destruct (Nat.ltb_spec (Z.to_nat n) (length l)); cbn [settle];
    split; f_equal; lia.
Qed.

Lemma count_after_take_and_skip_witness :
  0 <= 2 /\ Yields (gen [4; 5; 6]) [4; 5; 6] /\
  exists k, forall fuel, (k <= fuel)%nat ->
    Utils.count (Utils.take 2 (gen [4; 5; 6])) fuel = Ret 2 /\
    Utils.count (Utils.skip 2 (gen [4; 5; 6])) fuel = Ret 1.
Proof.
  split; [lia|]. split; [apply gen_Yields|].
  exact (@count_after_take_and_skip Z (gen [4; 5; 6]) [4; 5; 6] 2
           ltac:(lia) (gen_Yields _)).
Defined.

(** [any(fn)], and its alias [some], return [true] at the first item on
    which [fn] is true, whatever the source would do after it; with no
    such item they return [false] when the source ends. *)
Theorem any_is_existsb {T} (g : GenFn T) (fn : Predicate T) (fuel : nat) :
  Utils.any fn g fuel
    = (if existsb fn (fst (drain g fuel (fresh g))) then Ret true
       else settle (snd (drain g fuel (fresh g))) false) /\
  Utils.some fn g fuel = Utils.any fn g fuel.
Proof. split; [apply any_loop_any | reflexivity]. Qed.

(** [all(fn)], and its alias [every], return [false] at the first item
    on which [fn] is false, whatever the source would do after it; with
    no such item they return [true] when the source ends, so [true] on a
    source that yields nothing. *)
Theorem all_is_forallb {T} (g : GenFn T) (fn : Predicate T) (fuel : nat) :
  Utils.all fn g fuel
    = (if forallb fn (fst (drain g fuel (fresh g)))
       then settle (snd (drain g fuel (fresh g))) true
       else Ret false) /\
  Utils.every fn g fuel = Utils.all fn g fuel.
Proof. split; [apply all_loop_any | reflexivity]. Qed.

(** [find(fn)] returns the first item on which [fn] is true, whatever
    the source would do after it; with no such item it returns
    [undefined] when the source ends. *)
Theorem find_is_first_match {T} (g : GenFn T) (fn : Predicate T)
    (fuel : nat) :
  Utils.find fn g fuel
    = match List.find fn (fst (drain g fuel (fresh g))) with
      | Some v => Ret (Some v)
      | None => settle (snd (drain g fuel (fresh g))) None
      end.
Proof. apply find_loop_any. Qed.

Lemma reduce_on_nonempty_witness :
  Yields (gen [1; 2; 3]) [1; 2; 3] /\
  exists k, forall fuel, (k <= fuel)%nat ->
    Utils.reduce Z.add (gen [1; 2; 3]) fuel = Ret (Some 6).
Proof.
  split; [apply gen_Yields|].
  exact (@IterClaims.reduce_on_nonempty Z (gen [1; 2; 3]) Z.add 1 [2; 3]
           (gen_Yields _)).
Defined.

End CombinatorFacts.

(** * From the source to the result, for a source that ends *)

Section YieldsThrough.
Context {T : Type}.
Variables (g : GenFn T) (l : list T).
Hypothesis g_yields : Yields g l.

Lemma map_Yields {U} (fn : T -> U) : Yields (Utils.map fn g) (List.map fn l).
Proof.
  destruct g_yields as [k H]. exists k.
  change (fresh (Utils.map fn g)) with (fresh g).
  now rewrite map_in_step, H.
Qed.

Lemma filter_Yields (fn : T -> bool) :
  Yields (Utils.filter fn g) (List.filter fn l).
Proof.
  destruct g_yields as [k H]. exists k.
  change (fresh (Utils.filter fn g)) with (fresh g).
  now rewrite filter_in_step, H.
Qed.

Lemma skip_Yields (n : Z) : Yields (Utils.skip n g) (skipn (Z.to_nat n) l).
Proof.
  destruct g_yields as [k H]. exists k.
  change (fresh (Utils.skip n g)) with (n, fresh g).
  now rewrite skip_in_step, H.
Qed.

Lemma takeWhile_Yields (fn : Predicate T) :
  Yields (Utils.takeWhile fn g) (take_leading fn l).
Proof.
  destruct g_yields as [k H]. exists k.
  change (fresh (Utils.takeWhile fn g)) with (fresh g).
  rewrite takeWhile_drain, H. cbn [fst snd]. now destruct (forallb fn l).
Qed.

Lemma enumerate_Yields :
  Yields (Utils.enumerate g) (combine (zseq 0 1 (length l)) l).
Proof.
  destruct g_yields as [k H]. exists k.
  change (fresh (Utils.enumerate g)) with (0, fresh g).
  now rewrite enumerate_in_step, H.
Qed.

Lemma each_Yields : Yields (Mod.each g) l.
Proof.
  destruct g_yields as [k H]. exists k.
  change (fresh (Mod.each g)) with (fresh g).
  now rewrite each_in_step.
Qed.

(** Iterating a sized iterator over [g]: cut at the declared length, or
    not cut at all when that length is negative. *)
Lemma iterator_Yields (len : Z) :
  Yields (ExactSizedIter.iterator (ExactSizedIter.mk g len))
         (if len <? 0 then l else firstn (Z.to_nat len) l).
Proof.
  destruct g_yields as [k H]. exists k. rewrite iterator_is_take.
  cbn [ExactSizedIter._gen ExactSizedIter._len].
  change (fresh (Utils.take len g)) with (0, fresh g).
  destruct (Z.ltb_spec len 0).
  - now rewrite take_past_in_step.
  - rewrite take_drain_any, H by lia. cbn [fst snd].
    rewrite Z.sub_0_r. now destruct (_ <? _)%nat.
Qed.

Lemma iterator_Yields_all (len : Z) :
  Z.of_nat (length l) <= len ->
  Yields (ExactSizedIter.iterator (ExactSizedIter.mk g len)) l.
Proof.
  intros Hlen. pose proof (iterator_Yields len) as Y.
  destruct (Z.ltb_spec len 0); [lia|].
  now rewrite firstn_all2 in Y by lia.
Qed.

End YieldsThrough.

(** * Arrays *)

Section Arrays.
Context {T : Type}.
Variable a : list T.

Lemma array_forward_from :
  forall suf pre, a = pre ++ suf ->
    drain (Mod.array_forward a) (S (length suf)) (Z.of_nat (length pre))
      = (suf, Finished).
Proof.
  induction suf as [|x r IH]; intros pre E.
  - rewrite drain_S. cbn [next Mod.array_forward].
    rewrite E, app_nil_r.
    destruct (Z.ltb_spec (Z.of_nat (length pre)) (Z.of_nat (length pre)));
      [lia | reflexivity].
  - rewrite drain_S. cbn [next Mod.array_forward].
    assert (Hlen : length a = (length pre + S (length r))%nat)
      by (rewrite E, length_app; reflexivity).
    destruct (Z.ltb_spec (Z.of_nat (length pre)) (Z.of_nat (length a))); [|lia].
    rewrite Nat2Z.id.
    assert (N : nth_error a (length pre) = Some x)
      by (rewrite E, nth_error_app2, Nat.sub_diag by lia; reflexivity).
    rewrite N.
    replace (Z.of_nat (length pre) + 1) with (Z.of_nat (length (pre ++ [x])))
      by (rewrite length_app; cbn [length]; lia).
    change (length (x :: r)) with (S (length r)).
    rewrite (IH (pre ++ [x])); [reflexivity|].
    now rewrite <- app_assoc.
Qed.

Lemma array_backward_from :
  forall pre suf, a = pre ++ suf ->
    drain (Mod.array_backward a) (S (length pre)) (Z.of_nat (length pre) - 1)
      = (rev pre, Finished).
Proof.
  induction pre as [|x p IH] using rev_ind; intros suf E.
  - reflexivity.
  - rewrite drain_S. cbn [next Mod.array_backward].
    rewrite length_app. cbn [length].
    replace (Z.of_nat (length p + 1) - 1) with (Z.of_nat (length p)) by lia.
    destruct (Z.geb_spec (Z.of_nat (length p)) 0); [|lia].
    rewrite Nat2Z.id.
    assert (N : nth_error a (length p) = Some x)
      by (rewrite E, <- app_assoc, nth_error_app2, Nat.sub_diag by lia;
          reflexivity).
    rewrite N.
    replace (length p + 1)%nat with (S (length p)) by lia.
    rewrite (IH (x :: suf)) by (now rewrite E, <- app_assoc).
    now rewrite rev_app_distr.
Qed.

Lemma array_forward_Yields : Yields (Mod.array_forward a) a.
Proof.
  exists (S (length a)). apply (array_forward_from a []). reflexivity.
Qed.

Lemma array_backward_Yields : Yields (Mod.array_backward a) (rev a).
Proof.
  exists (S (length a)). apply (array_backward_from a []).
  now rewrite app_nil_r.
Qed.

End Arrays.

(** * The iterator tiers: further properties *)

Module TierFacts.

(** [iter(array)] is a double-ended iterator whose forward producer
    yields the array, whose reverse producer yields it backwards and
    whose declared length is the length of the array; iterating it gives
    the array and iterating its [rev()] gives the array backwards. *)
Theorem iter_of_array {T} (a : list T) :
  exists it,
    Mod.iter (Mod.AnArray a) = Mod.OfDoubleEnded it /\
    Mirrored it a /\
    DoubleEndedIter.len it = Z.of_nat (length a) /\
    Yields (DoubleEndedIter.iterator it) a /\
    Yields (DoubleEndedIter.iterator (DoubleEndedIter.rev it)) (rev a).
Proof.
  eexists; split; [reflexivity|].
  pose proof (array_forward_Yields a) as F.
  pose proof (array_backward_Yields a) as B.
  split; [split; assumption|]. split; [reflexivity|]. split.
  - apply (iterator_Yields_all F). cbn [DoubleEndedIter._len]. lia.
  - apply (iterator_Yields_all B).
    cbn [DoubleEndedIter._len DoubleEndedIter.rev].
    rewrite length_rev. lia.
Qed.

(** [iter(set)] and [iter(map)] are exact-sized iterators over the items
    (the entries, for a map) in insertion order, with [size] as declared
    length; iterating them gives all the items. *)
Theorem iter_of_set {T} (items : list T) :
  exists it,
    Mod.iter (Mod.ASetOrMap items) = Mod.OfExactSized it /\
    Yields (ExactSizedIter._gen it) items /\
    ExactSizedIter.len it = Z.of_nat (length items) /\
    Yields (ExactSizedIter.iterator it) items.
Proof.
  eexists; split; [reflexivity|].
  pose proof (each_Yields (gen_Yields items)) as E.
  split; [exact E|]. split; [reflexivity|].
  apply (iterator_Yields_all E). lia.
Qed.

(** Iterating an exact-sized iterator whose producer yields [l]: the
    first [len] items of [l] when the declared length [len] is not
    negative (all of [l] when [len] is at least its length), and all of
    [l], uncut, when [len] is negative. *)
Theorem iterator_cuts_at_len {T} (it : ExactSizedIter.t T) (l : list T) :
  Yields (ExactSizedIter._gen it) l ->
  Yields (ExactSizedIter.iterator it)
         (if ExactSizedIter.len it <? 0 then l
          else firstn (Z.to_nat (ExactSizedIter.len it)) l).
Proof.
  intros H. destruct it as [g len]. apply (iterator_Yields H).
Qed.

Lemma iterator_cuts_at_len_witness :
  Yields (gen [1; 2; 3]) [1; 2; 3] /\
  Yields (ExactSizedIter.iterator (ExactSizedIter.mk (gen [1; 2; 3]) 2)) [1; 2] /\
  Yields (ExactSizedIter.iterator (ExactSizedIter.mk (gen [1; 2; 3]) (-1)))
         [1; 2; 3].
Proof.
  split; [apply gen_Yields|]. split.
  - exact (@iterator_cuts_at_len Z (ExactSizedIter.mk (gen [1; 2; 3]) 2)
             [1; 2; 3] (gen_Yields _)).
  - exact (@iterator_cuts_at_len Z (ExactSizedIter.mk (gen [1; 2; 3]) (-1))
             [1; 2; 3] (gen_Yields _)).
Defined.

(** On a double-ended iterator whose producers mirror each other,
    [map], [filter], [skipWhile] and [rev] give an iterator whose
    producers mirror each other again: on the mapped items, on the items
    kept, and on the reversed list. *)
Theorem mirror_kept {T U} (it : DoubleEndedIter.t T) (l : list T)
    (fn : T -> U) (p : T -> bool) :
  Mirrored it l ->
  Mirrored (DoubleEndedIter.map fn it) (List.map fn l) /\
  Mirrored (DoubleEndedIter.filter p it) (List.filter p l) /\
  Mirrored (DoubleEndedIter.skipWhile p it)
           (List.filter (fun x => negb (p x)) l) /\
  Mirrored (DoubleEndedIter.rev it) (rev l).
Proof.
  intros [F R]. unfold Mirrored.
  cbn [DoubleEndedIter.map DoubleEndedIter.filter DoubleEndedIter.skipWhile
       DoubleEndedIter.rev DoubleEndedIter._gen DoubleEndedIter._rgen].
  rewrite <- map_rev, <- !filter_rev, rev_involutive.
  repeat split; auto using map_Yields, filter_Yields, skipWhile_Yields.
Qed.

Lemma mirror_kept_witness :
  Mirrored (DoubleEndedIter.mk (gen [1; 2; 3]) (gen [3; 2; 1]) 3) [1; 2; 3] /\
  Mirrored (DoubleEndedIter.map (fun x => x * 10)
              (DoubleEndedIter.mk (gen [1; 2; 3]) (gen [3; 2; 1]) 3))
           [10; 20; 30].
Proof.
  assert (M : Mirrored (DoubleEndedIter.mk (gen [1; 2; 3]) (gen [3; 2; 1]) 3)
                       [1; 2; 3])
    by (split; apply gen_Yields).
  split; [exact M|].
  exact (proj1 (@mirror_kept Z Z _ [1; 2; 3] (fun x => x * 10)
                  (fun _ => true) M)).
Defined.

(** [take(n)] and [skip(n)] act on the reverse producer as on the
    forward one, from its own first item.  So on a double-ended iterator
    whose producers mirror each other on [l], after [take(n)] the forward
    producer yields the first [n] items of [l] and the reverse producer
    the last [n] items, backwards; after [skip(n)] the forward producer
    yields [l] without its first [n] items and the reverse producer [l]
    without its last [n] items, backwards. *)
Theorem take_skip_from_both_ends {T} (it : DoubleEndedIter.t T) (l : list T)
    (n : Z) :
  Mirrored it l -> 0 <= n ->
  Yields (DoubleEndedIter._gen (DoubleEndedIter.take n it))
         (firstn (Z.to_nat n) l) /\
  Yields (DoubleEndedIter._rgen (DoubleEndedIter.take n it))
         (rev (skipn (length l - Z.to_nat n) l)) /\
  Yields (DoubleEndedIter._gen (DoubleEndedIter.skip n it))
         (skipn (Z.to_nat n) l) /\
  Yields (DoubleEndedIter._rgen (DoubleEndedIter.skip n it))
         (rev (firstn (length l - Z.to_nat n) l)).
Proof.
  intros [F R] Hn.
  cbn [DoubleEndedIter.take DoubleEndedIter.skip
       DoubleEndedIter._gen DoubleEndedIter._rgen].
  rewrite <- firstn_rev, <- skipn_rev.
  repeat split; auto using take_Yields, skip_Yields.
Qed.

Lemma take_skip_from_both_ends_witness :
  Mirrored (DoubleEndedIter.mk (gen [1; 2; 3]) (gen [3; 2; 1]) 3) [1; 2; 3] /\
  0 <= 2 /\
  Yields (DoubleEndedIter._gen
            (DoubleEndedIter.take 2
               (DoubleEndedIter.mk (gen [1; 2; 3]) (gen [3; 2; 1]) 3)))
         [1; 2] /\
  Yields (DoubleEndedIter._rgen
            (DoubleEndedIter.take 2
               (DoubleEndedIter.mk (gen [1; 2; 3]) (gen [3; 2; 1]) 3)))
         [3; 2].
Proof.
  assert (M : Mirrored (DoubleEndedIter.mk (gen [1; 2; 3]) (gen [3; 2; 1]) 3)
                       [1; 2; 3])
    by (split; apply gen_Yields).
  pose proof (@take_skip_from_both_ends Z _ [1; 2; 3] 2 M ltac:(lia)) as H.
  split; [exact M|]. split; [lia|].
  split; [exact (proj1 H) | exact (proj1 (proj2 H))].
Defined.

(** [enumerate()] and [takeWhile(fn)] also act on the reverse producer
    from its own first item: on a double-ended iterator whose producers
    mirror each other on [l], the reverse producer of [enumerate()]
    numbers the items of [l] backwards from [0], and the reverse producer
    of [takeWhile(fn)] yields the maximal run at the end of [l] on which
    [fn] is true, backwards. *)
Theorem enumerate_takeWhile_from_both_ends {T} (it : DoubleEndedIter.t T)
    (l : list T) (fn : Predicate T) :
  Mirrored it l ->
  Yields (DoubleEndedIter._gen (DoubleEndedIter.enumerate it))
         (combine (zseq 0 1 (length l)) l) /\
  Yields (DoubleEndedIter._rgen (DoubleEndedIter.enumerate it))
         (combine (zseq 0 1 (length l)) (rev l)) /\
  Yields (DoubleEndedIter._gen (DoubleEndedIter.takeWhile fn it))
         (take_leading fn l) /\
  Yields (DoubleEndedIter._rgen (DoubleEndedIter.takeWhile fn it))
         (take_leading fn (rev l)).
Proof.
  intros [F R].
  cbn [DoubleEndedIter.enumerate DoubleEndedIter.takeWhile
       DoubleEndedIter._gen DoubleEndedIter._rgen].
  pose proof (enumerate_Yields R) as ER. rewrite length_rev in ER.
  repeat split; auto using enumerate_Yields, takeWhile_Yields.
Qed.

Lemma enumerate_takeWhile_from_both_ends_witness :
  Mirrored (DoubleEndedIter.mk (gen [7; 8; 9]) (gen [9; 8; 7]) 3) [7; 8; 9] /\
  Yields (DoubleEndedIter._rgen
            (DoubleEndedIter.enumerate
               (DoubleEndedIter.mk (gen [7; 8; 9]) (gen [9; 8; 7]) 3)))
         [(0, 9); (1, 8); (2, 7)].
Proof.
  assert (M : Mirrored (DoubleEndedIter.mk (gen [7; 8; 9]) (gen [9; 8; 7]) 3)
                       [7; 8; 9])
    by (split; apply gen_Yields).
  split; [exact M|].
  exact (proj1 (proj2 (@enumerate_takeWhile_from_both_ends Z _ [7; 8; 9]
                         (fun _ => true) M))).
Defined.

(** [filter(fn)] on an exact-sized iterator keeps the declared length.
    If that length was the number of items of the source, it is after
    [filter] an upper bound of the number of items, and iterating the
    result gives all the items on which [fn] is true. *)
Theorem filter_keeps_len {T} (it : ExactSizedIter.t T) (l : list T)
    (fn : T -> bool) :
  Yields (ExactSizedIter._gen it) l ->
  ExactSizedIter.len it = Z.of_nat (length l) ->
  ExactSizedIter.len (ExactSizedIter.filter fn it) = Z.of_nat (length l) /\
  Z.of_nat (length (List.filter fn l))
    <= ExactSizedIter.len (ExactSizedIter.filter fn it) /\
  Yields (ExactSizedIter.iterator (ExactSizedIter.filter fn it))
         (List.filter fn l).
Proof.
  intros H Hlen. destruct it as [g len].
  unfold ExactSizedIter.len, ExactSizedIter.filter in *.
  cbn [ExactSizedIter._gen ExactSizedIter._len] in *.
  pose proof (filter_length_le fn l) as Hle.
  repeat split; try lia.
  apply (iterator_Yields_all (filter_Yields H fn)). lia.
Qed.

Lemma filter_keeps_len_witness :
  Yields (gen [1; 2; 3; 4]) [1; 2; 3; 4] /\
  ExactSizedIter.len
    (ExactSizedIter.filter Z.even (ExactSizedIter.mk (gen [1; 2; 3; 4]) 4)) = 4 /\
  Yields (ExactSizedIter.iterator
            (ExactSizedIter.filter Z.even
               (ExactSizedIter.mk (gen [1; 2; 3; 4]) 4)))
         [2; 4].
Proof.
  pose proof (@filter_keeps_len Z (ExactSizedIter.mk (gen [1; 2; 3; 4]) 4)
                [1; 2; 3; 4] Z.even (gen_Yields _) eq_refl) as H.
  split; [apply gen_Yields|].
  split; [exact (proj1 H) | exact (proj2 (proj2 H))].
Defined.

(** [skip(n)], [n >= 0], on an exact-sized iterator whose declared
    length is the number of items [l] of its producer: iterating the
    result gives [l] without its first [n] items, whatever [n], and the
    new declared length is the number of those items as long as [n] is
    not greater than the old one. *)
Theorem skip_of_exact {T} (it : ExactSizedIter.t T) (l : list T) (n : Z) :
  Yields (ExactSizedIter._gen it) l ->
  ExactSizedIter.len it = Z.of_nat (length l) ->
  0 <= n ->
  Yields (ExactSizedIter.iterator (ExactSizedIter.skip n it))
         (skipn (Z.to_nat n) l) /\
  (n <= ExactSizedIter.len it ->
   ExactSizedIter.len (ExactSizedIter.skip n it)
     = Z.of_nat (length (skipn (Z.to_nat n) l))).
Proof.
  intros H Hlen Hn. destruct it as [g len].
  unfold ExactSizedIter.len, ExactSizedIter.skip in *.
  cbn [ExactSizedIter._gen ExactSizedIter._len] in *.
  split; [| intros Hle; rewrite length_skipn; lia].
  pose proof (iterator_Yields (skip_Yields H n) (len - n)) as Y.
  destruct (Z.ltb_spec (len - n) 0); [exact Y|].
  rewrite firstn_all2 in Y by (rewrite length_skipn; lia). exact Y.
Qed.

Lemma skip_of_exact_witness :
  Yields (gen [1; 2; 3]) [1; 2; 3] /\ 0 <= 2 /\
  Yields (ExactSizedIter.iterator
            (ExactSizedIter.skip 2 (ExactSizedIter.mk (gen [1; 2; 3]) 3)))
         [3] /\
  Yields (ExactSizedIter.iterator
            (ExactSizedIter.skip 5 (ExactSizedIter.mk (gen [1; 2; 3]) 3)))
         [].
Proof.
  split; [apply gen_Yields|]. split; [lia|]. split.
  - exact (proj1 (@skip_of_exact Z (ExactSizedIter.mk (gen [1; 2; 3]) 3)
                    [1; 2; 3] 2 (gen_Yields _) eq_refl ltac:(lia))).
  - exact (proj1 (@skip_of_exact Z (ExactSizedIter.mk (gen [1; 2; 3]) 3)
                    [1; 2; 3] 5 (gen_Yields _) eq_refl ltac:(lia))).
Defined.

End TierFacts.

(** * Ranges: further properties *)

Lemma zseq_In a d n x :
  In x (zseq a d n) -> exists i, 0 <= i < Z.of_nat n /\ x = a + i * d.
Proof.
  revert a; induction n as [|n IH]; intros a H; [contradiction|].
  cbn [zseq In] in H. destruct H as [<- | H].
  - exists 0. lia.
  - destruct (IH _ H) as (i & Hi & ->). exists (i + 1). lia.
Qed.

Lemma range_size_one_step n : 0 <= n -> range_size 0 n 1 = Z.to_nat n.
Proof.
  intros Hn. unfold range_size, unreachable, ceil_div.
  destruct (Z.geb_spec 0 n); cbn [Z.gtb Z.ltb Z.compare andb orb].
  - f_equal. lia.
  - rewrite Z.sub_0_r, Z.abs_eq, Z.div_1_r by lia. f_equal. lia.
Qed.

(** Where the terms of the sequence of [range] lie. *)
Lemma range_size_items start end_ step x :
  step <> 0 ->
  In x (zseq start step (range_size start end_ step)) ->
  (if step >? 0 then start <= x < end_ else end_ < x <= start) /\
  (step | x - start).
Proof.
  intros Hs Hx.
  apply zseq_In in Hx. destruct Hx as (i & Hi & ->).
  split; [| exists i; lia].
  unfold range_size in Hi.
  destruct (unreachable start end_ step) eqn:U; [cbn in Hi; lia|].
  unfold unreachable in U.
  destruct (Z.gtb_spec step 0).
  - destruct (Z.geb_spec start end_); [discriminate|].
    rewrite (Z.abs_eq step), (Z.abs_eq (end_ - start)) in Hi by lia.
    destruct (@ceil_div_bounds (end_ - start) step) as (? & ? & ?); [lia|lia|].
    nia.
  - destruct (Z.ltb_spec step 0); [|lia].
    destruct (Z.leb_spec start end_); [discriminate|].
    rewrite (Z.abs_neq step), (Z.abs_neq (end_ - start)) in Hi by lia.
    destruct (@ceil_div_bounds (- (end_ - start)) (- step)) as (? & ? & ?);
      [lia|lia|].
    nia.
Qed.

(** On small arguments the loops of [range] add and subtract exactly:
    every term, the term plus the step (the next [i] of the forward loop)
    and the term minus the step (the next [i] of the reverse loop) are
    exact numbers. *)
Lemma range_sums_exact start end_ step :
  small start -> small end_ -> small step -> step <> 0 ->
  Forall (fun x => exact_number x /\ exact_number (x + step) /\
                   exact_number (x - step))
         (zseq start step (range_size start end_ step)).
Proof.
  intros S1 S2 S3 Hs. apply Forall_forall. intros x Hx.
  destruct (@range_size_items start end_ step x Hs Hx) as [B _].
  unfold small, exact_number in *.
  destruct (step >? 0); lia.
Qed.

(** On small arguments everything the constructor [range] computes on
    the way to its producers and its length is an exact number. *)
Lemma range_values_exact start end_ step :
  small start -> small end_ -> small step -> step <> 0 ->
  exact_number (end_ - start) /\
  exact_number (Z.rem (end_ - start) step) /\
  exact_number (end_ - or_else (Z.rem (end_ - start) step) step) /\
  exact_number (start - step) /\
  exact_number (- step) /\
  exact_number (ceil_div (Z.abs (end_ - start)) (Z.abs step)).
Proof.
  intros S1 S2 S3 Hs.
  pose proof (Z.rem_bound_abs (end_ - start) step Hs) as R.
  assert (C : 0 <= ceil_div (Z.abs (end_ - start)) (Z.abs step)
              <= Z.abs (end_ - start)).
  { unfold ceil_div.
    pose proof (Z.div_mod (- Z.abs (end_ - start)) (Z.abs step) ltac:(lia)) as E.
    pose proof (Z.mod_pos_bound (- Z.abs (end_ - start)) (Z.abs step)
                  ltac:(lia)) as B.
    nia. }
  unfold small, exact_number, or_else in *.
  destruct (Z.rem (end_ - start) step =? 0); repeat split; lia.
Qed.

Module RangeFacts.
Import IterRange.

(** For small arguments and a non-zero step, iterating
    [range(start, end, step)] gives the arithmetic sequence of
    [range_size] terms, whole, and iterating its [rev()] gives that
    sequence backwards, whole: the declared length cuts nothing off at
    either end.  Every term, and every sum the two loops compute from
    it, is an exact number. *)
Theorem range_iterates_both_ways (start end_ step : Z) :
  small start -> small end_ -> small step -> step <> 0 ->
  exists it,
    range start (Some end_) (Some step) = Returned it /\
    Yields (DoubleEndedIter.iterator it)
           (zseq start step (range_size start end_ step)) /\
    Yields (DoubleEndedIter.iterator (DoubleEndedIter.rev it))
           (rev (zseq start step (range_size start end_ step))) /\
    Forall (fun x => exact_number x /\ exact_number (x + step) /\
                     exact_number (x - step))
           (zseq start step (range_size start end_ step)).
Proof.
  intros S1 S2 S3 Hs.
  destruct (@range_exact start end_ step Hs) as (it & E & F & R & L).
  exists it. split; [exact E|].
  unfold DoubleEndedIter.len, ExactSizedIter.len in L. cbn in L.
  split; [|split].
  - apply (iterator_Yields_all F). rewrite zseq_length.
    cbn [DoubleEndedIter._len]. lia.
  - apply (iterator_Yields_all R). rewrite length_rev, zseq_length.
    cbn [DoubleEndedIter._len DoubleEndedIter.rev]. lia.
  - now apply range_sums_exact.
Qed.

Lemma range_iterates_both_ways_witness :
  small 3 /\ small 40 /\ small 10 /\ 10 <> 0 /\
  exists it,
    range 3 (Some 40) (Some 10) = Returned it /\
    Yields (DoubleEndedIter.iterator it) [3; 13; 23; 33] /\
    Yields (DoubleEndedIter.iterator (DoubleEndedIter.rev it)) [33; 23; 13; 3].
Proof.
  assert (S1 : small 3) by (unfold small; lia).
  assert (S2 : small 40) by (unfold small; lia).
  assert (S3 : small 10) by (unfold small; lia).
  destruct (@range_iterates_both_ways 3 40 10 S1 S2 S3 ltac:(lia))
    as (it & E & F & R & _).
  repeat (split; [assumption || lia|]).
  exists it. split; [exact E|]. split; [exact F | exact R].
Defined.

(** For small arguments and a non-zero step, every item
    [range(start, end, step)] yields lies between [start], included,
    and [end], excluded, on the side the step points to, at a whole
    number of steps from [start]. *)
Theorem range_items_between (start end_ step : Z) :
  small start -> small end_ -> small step -> step <> 0 ->
  exists it l,
    range start (Some end_) (Some step) = Returned it /\
    Yields (DoubleEndedIter._gen it) l /\
    Forall (fun x =>
              (if step >? 0 then start <= x < end_ else end_ < x <= start) /\
              (step | x - start) /\
              exact_number (x + step)) l.
Proof.
  intros S1 S2 S3 Hs.
  destruct (@range_exact start end_ step Hs) as (it & E & F & _ & _).
  exists it, (zseq start step (range_size start end_ step)).
  split; [exact E|]. split; [exact F|].
  pose proof (range_sums_exact S1 S2 S3 Hs) as X.
  rewrite Forall_forall in *. intros x Hx.
  destruct (@range_size_items start end_ step x Hs Hx) as [B D].
  destruct (X x Hx) as (_ & P & _). auto.
Qed.

Lemma range_items_between_witness :
  small 10 /\ small 0 /\ small (-3) /\ -3 <> 0 /\
  exists it l,
    range 10 (Some 0) (Some (-3)) = Returned it /\
    Yields (DoubleEndedIter._gen it) l /\
    Forall (fun x => (if -3 >? 0 then 10 <= x < 0 else 0 < x <= 10) /\
                     (-3 | x - 10) /\ exact_number (x + -3)) l.
Proof.
  assert (S1 : small 10) by (unfold small; lia).
  assert (S2 : small 0) by (unfold small; lia).
  assert (S3 : small (-3)) by (unfold small; lia).
  repeat (split; [assumption || lia|]).
  exact (@range_items_between 10 0 (-3) S1 S2 S3 ltac:(lia)).
Defined.

(** With one small argument [n >= 0], [range(n)] is [0, 1, ..., n - 1]
    with length [n], and [irange(n)] is [0, 1, ..., n] with length
    [n + 1]; both have mirrored producers. *)
Theorem ranges_of_one_argument (n : Z) :
  small n -> 0 <= n ->
  (exists it,
     range n None None = Returned it /\
     Mirrored it (zseq 0 1 (Z.to_nat n)) /\
     DoubleEndedIter.len it = n) /\
  (exists it,
     irange n None None = Returned it /\
     Mirrored it (zseq 0 1 (Z.to_nat (n + 1))) /\
     DoubleEndedIter.len it = n + 1) /\
  exact_number (n + 1).
Proof.
  intros Sn Hn. split; [|split].
  - destruct (@range_exact 0 n 1 ltac:(lia)) as (it & E & F & R & L).
    rewrite range_size_one_step in * by lia.
    exists it. split; [exact E|]. split; [split; assumption | lia].
  - assert (A : (0 < 1 /\ 0 <= n) \/ (1 < 0 /\ n <= 0)) by lia.
    destruct (@irange_agreeing 0 n 1 ltac:(lia) A) as (it & E & F & R).
    pose proof (@irange_len_agreeing 0 n 1 ltac:(lia) A (or_introl Z.lt_0_1)
                  it E) as L.
    assert (Y : irange_yielded 0 n 1 = n + 1)
      by (unfold irange_yielded, floor_div; cbn [Z.gtb Z.compare];
          rewrite Z.sub_0_r, Z.div_1_r; reflexivity).
    rewrite Y in *.
    exists it. split; [exact E|]. split; [split; assumption | exact L].
  - unfold small, exact_number in *. lia.
Qed.

Lemma ranges_of_one_argument_witness :
  small 3 /\ 0 <= 3 /\
  (exists it,
     range 3 None None = Returned it /\
     Mirrored it [0; 1; 2] /\ DoubleEndedIter.len it = 3) /\
  (exists it,
     irange 3 None None = Returned it /\
     Mirrored it [0; 1; 2; 3] /\ DoubleEndedIter.len it = 4).
Proof.
  assert (S1 : small 3) by (unfold small; lia).
  destruct (@ranges_of_one_argument 3 S1 ltac:(lia)) as (R & I & _).
  split; [exact S1|]. split; [lia|]. split; [exact R | exact I].
Defined.

(** With small arguments, a positive step and [start <= end],
    [irange(start, end, step)] has mirrored producers on the arithmetic
    sequence of [floor((end - start) / step) + 1] terms, that number as
    declared length, and gives the whole sequence when iterated; the
    last term is at most [end] and less than one step from it.  Every
    term, and every sum the two loops compute from it, is an exact
    number. *)
Theorem irange_going_up (start end_ step : Z) :
  small start -> small end_ -> small step ->
  0 < step -> start <= end_ ->
  exists it,
    irange start (Some end_) (Some step) = Returned it /\
    Mirrored it (zseq start step (irange_size start end_ step)) /\
    DoubleEndedIter.len it = Z.of_nat (irange_size start end_ step) /\
    Yields (DoubleEndedIter.iterator it)
           (zseq start step (irange_size start end_ step)) /\
    start + (Z.of_nat (irange_size start end_ step) - 1) * step <= end_ /\
    end_ < start + Z.of_nat (irange_size start end_ step) * step /\
    Forall (fun x => exact_number x /\ exact_number (x + step) /\
                     exact_number (x - step))
           (zseq start step (irange_size start end_ step)).
Proof.
  intros S1 S2 S3 Hs Hd.
  assert (A : (0 < step /\ start <= end_) \/ (step < 0 /\ end_ <= start)) by lia.
  destruct (@irange_agreeing start end_ step ltac:(lia) A) as (it & E & F & R).
  pose proof (@irange_len_value start end_ step ltac:(lia) it E) as L.
  assert (Y : Z.to_nat (irange_yielded start end_ step)
              = irange_size start end_ step).
  { unfold irange_yielded, irange_size.
    destruct (Z.gtb_spec step 0); [|lia].
    now rewrite (Z.abs_eq step), (Z.abs_eq (end_ - start)) by lia. }
  rewrite Y in *.
  destruct (@floor_div_bounds (end_ - start) step) as (B0 & B1 & B2); [lia|lia|].
  assert (N : Z.of_nat (irange_size start end_ step)
              = floor_div (end_ - start) step + 1).
  { unfold irange_size.
    rewrite (Z.abs_eq step), (Z.abs_eq (end_ - start)) by lia. lia. }
  exists it. split; [exact E|]. split; [split; assumption|].
  split; [exact L|]. split; [|split; [rewrite N; lia | split; [rewrite N; lia|]]].
  - apply (iterator_Yields_all F). rewrite zseq_length.
    unfold DoubleEndedIter.len, ExactSizedIter.len in L. cbn in L. lia.
  - apply Forall_forall. intros x Hx.
    apply zseq_In in Hx. destruct Hx as (i & Hi & ->).
    unfold small, exact_number in *. nia.
Qed.

Lemma irange_going_up_witness :
  small 1 /\ small 10 /\ small 2 /\ 0 < 2 /\ 1 <= 10 /\
  exists it,
    irange 1 (Some 10) (Some 2) = Returned it /\
    Mirrored it [1; 3; 5; 7; 9] /\
    DoubleEndedIter.len it = 5.
Proof.
  assert (S1 : small 1) by (unfold small; lia).
  assert (S2 : small 10) by (unfold small; lia).
  assert (S3 : small 2) by (unfold small; lia).
  destruct (@irange_going_up 1 10 2 S1 S2 S3 ltac:(lia) ltac:(lia))
    as (it & E & M & L & _).
  repeat (split; [assumption || lia|]).
  exists it. split; [exact E|]. split; [exact M | exact L].
Defined.

(** The bare producer of src/range/range.ts is built whatever the
    step: with [step = 0] the error comes at the first pull, before
    anything is yielded, and a terminal operation on it raises that
    error. *)
Theorem bare_range_zero_step_throws_late (start end_ : Z) (k : nat) :
  drain (RangeTs.range start (Some end_) (Some 0)) (S k)
        (fresh (RangeTs.range start (Some end_) (Some 0)))
    = ([], Threw "Step cannot be 0") /\
  Utils.count (RangeTs.range start (Some end_) (Some 0)) (S k)
    = Raise "Step cannot be 0".
Proof. split; reflexivity. Qed.

(** The bare producer takes its direction from [start] and [end], not
    from the sign of the step: on small arguments, with a non-zero step
    pointing from [start] to [end] (or with [start = end]), it yields the
    arithmetic sequence of [range_size] terms and ends; every sum its
    loop computes is an exact number. *)
Theorem bare_range_agreeing (start end_ step : Z) :
  small start -> small end_ -> small step ->
  (0 < step /\ start <= end_) \/ (step < 0 /\ end_ <= start) ->
  Yields (RangeTs.range start (Some end_) (Some step))
         (zseq start step (range_size start end_ step)) /\
  Forall (fun x => exact_number x /\ exact_number (x + step))
         (zseq start step (range_size start end_ step)).
Proof.
  intros S1 S2 S3 A. split.
  - change (RangeTs.range start (Some end_) (Some step))
      with (rangeGen start end_ step).
    unfold range_size. destruct (unreachable start end_ step) eqn:U.
    + apply rangeGen_empty; [|lia].
      unfold unreachable in U.
      destruct (Z.gtb_spec step 0), (Z.ltb_spec step 0),
        (Z.geb_spec start end_), (Z.leb_spec start end_);
        cbn in U; try discriminate; lia.
    + destruct (@range_exact start end_ step ltac:(lia)) as (it & E & F & _).
      rewrite range_reachable in E by (assumption || lia).
      inversion E; subst it; clear E.
      unfold range_size in F. now rewrite U in F.
  - pose proof (@range_sums_exact start end_ step S1 S2 S3 ltac:(lia)) as X.
    rewrite Forall_forall in *. intros x Hx.
    destruct (X x Hx) as (P & Q & _). auto.
Qed.

Lemma bare_range_agreeing_witness :
  small 2 /\ small 10 /\
  ((0 < 2 /\ 2 <= 10) \/ (2 < 0 /\ 10 <= 2)) /\
  Yields (RangeTs.range 2 (Some 10) (Some 2)) [2; 4; 6; 8].
Proof.
  assert (S1 : small 2) by (unfold small; lia).
  assert (S2 : small 10) by (unfold small; lia).
  split; [exact S1|]. split; [exact S2|]. split; [lia|].
  exact (proj1 (@bare_range_agreeing 2 10 2 S1 S2 S1 ltac:(lia))).
Defined.

(** With a step pointing away from [end] the bare producer never ends.
    On small arguments, and for as many transitions [k] as keep
    [start + k * step] an exact number, it has yielded after [k]
    transitions the [k] first terms of the arithmetic sequence and is
    still going. *)
Theorem bare_range_runs_away (start end_ step : Z) :
  small start -> small end_ -> small step ->
  (start < end_ /\ step < 0) \/ (end_ < start /\ 0 < step) ->
  (forall k,
      exact_number (start + Z.of_nat k * step) ->
      drain (RangeTs.range start (Some end_) (Some step)) k
            (fresh (RangeTs.range start (Some end_) (Some step)))
        = (zseq start step k, Pending) /\
      Forall (fun x => exact_number x /\ exact_number (x + step))
             (zseq start step k)) /\
  NeverEnds (RangeTs.range start (Some end_) (Some step)).
Proof.
  intros S1 S2 S3 A.
  assert (E : forall k,
             drain (rangeGen start end_ step) k start
               = (zseq start step k, Pending)).
  { intros k. destruct A as [[Hd Hs]|[Hd Hs]].
    - apply drain_rangeGen_runaway_down; lia.
    - apply drain_rangeGen_runaway_up; lia. }
  split.
  - intros k Hk. split; [exact (E k)|].
    apply Forall_forall. intros x Hx.
    apply zseq_In in Hx. destruct Hx as (i & Hi & ->).
    unfold small, exact_number in *.
    destruct A as [[Hd Hs]|[Hd Hs]]; nia.
  - intros k.
    change (snd (drain (rangeGen start end_ step) k start) = Pending).
    now rewrite E.
Qed.

Lemma bare_range_runs_away_witness :
  small 0 /\ small 5 /\ small (-1) /\
  ((0 < 5 /\ -1 < 0) \/ (5 < 0 /\ 0 < -1)) /\
  drain (RangeTs.range 0 (Some 5) (Some (-1))) 3
        (fresh (RangeTs.range 0 (Some 5) (Some (-1))))
    = ([0; -1; -2], Pending) /\
  NeverEnds (RangeTs.range 0 (Some 5) (Some (-1))).
Proof.
  assert (S1 : small 0) by (unfold small; lia).
  assert (S2 : small 5) by (unfold small; lia).
  assert (S3 : small (-1)) by (unfold small; lia).
  destruct (@bare_range_runs_away 0 5 (-1) S1 S2 S3 ltac:(lia)) as (D & N).
  repeat (split; [assumption || lia|]).
  split; [| exact N].
  exact (proj1 (D 3%nat ltac:(unfold exact_number; cbn; lia))).
Defined.

End RangeFacts.
